(** * The client-side orchestration layer of the dashboard (App.jsx)

    A shallow embedding of the handlers of [src/frontend/src/App.jsx]:
    the notification feed, the command dispatcher, the chat session, the
    resource aggregator, pagination and sign-out.

    Conventions of the embedding.
    - JSON values received from the backend are [JSValue]s; numbers are
      integers ([Z]), JSON objects are association lists with one binding
      per key.  The text of a number outside the safe integers is the
      engine's and is asked of the [Host].
    - JavaScript strings are byte strings holding their UTF-8 encoding.
    - A handler of a React component closes over the state of the render
      that created it.  Every handler therefore takes that render's
      [AppState] as [snap] (what the identifiers [query], [notifications],
      [chatHistory], ... denote inside the handler) and runs on a [World]
      holding the pending state written by the [set...] functions.
    - An [await] is modelled by asking the [Host] for the settled result at
      once.  [Date.now()] and [new Date()] read the clock [now] of the
      world, which moves when the event loop gets control ([tick]).
    - [localStorage] holds, per key, the value whose JSON text the source
      stores ([JSON.parse (JSON.stringify v) = v] on the values stored);
      a full storage is not modelled.
    - Console output is not modelled.  The calls of [fetch] and of
      [addNotification] are recorded in [calls], as a test double would. *)

From Stdlib Require Import ZArith List String Ascii Lia Bool.
From stdpp Require Import base option list gmap strings pretty.

Open Scope string_scope.
Open Scope list_scope.
Open Scope Z_scope.

(** ** JSON values and the JavaScript operators applied to them *)

#[warnings="-register-all"]
Inductive JSValue : Type :=
  | JUndefined
  | JNull
  | JBool (b : bool)
  | JNum (n : Z)
  | JStr (s : string)
  | JArr (l : list JSValue)
  | JObj (kv : list (string * JSValue)).

(** Truthiness, as tested by [if], [&&], [||] and [?:]. *)
Definition truthy (v : JSValue) : bool :=
  match v with
  | JUndefined | JNull => false
  | JBool b => b
  | JNum n => negb (Z.eqb n 0)
  | JStr s => negb (String.eqb s "")
  | JArr _ | JObj _ => true
  end.

(** [a || b] on values. *)
Definition js_or (a b : JSValue) : JSValue := if truthy a then a else b.

(** Number of UTF-16 code units of a string given by its UTF-8 bytes: one
    per byte that is not a continuation byte, one more for the lead byte
    of a four-byte sequence. *)
Fixpoint utf16_length (s : string) : Z :=
  match s with
  | EmptyString => 0
  | String c s' =>
      let b := Z.of_nat (nat_of_ascii c) in
      (if (128 <=? b) && (b <? 192) then 0 else if 240 <=? b then 2 else 1)
      + utf16_length s'
  end.

Fixpoint assoc (k : string) (kv : list (string * JSValue)) : option JSValue :=
  match kv with
  | [] => None
  | (k', v) :: kv' => if String.eqb k k' then Some v else assoc k kv'
  end.

(** [v.k] for a data property [k] (none of the names the source reads is
    defined on a prototype, [length] apart).  [None] is the [TypeError]
    raised when [v] is [null] or [undefined]. *)
Definition get_prop (v : JSValue) (k : string) : option JSValue :=
  match v with
  | JUndefined | JNull => None
  | JObj kv => Some (default JUndefined (assoc k kv))
  | JArr l =>
      Some (if String.eqb k "length" then JNum (Z.of_nat (length l)) else JUndefined)
  | JStr s =>
      Some (if String.eqb k "length" then JNum (utf16_length s) else JUndefined)
  | JBool _ | JNum _ => Some JUndefined
  end.

(** [v?.k]. *)
Definition get_prop_opt (v : JSValue) (k : string) : JSValue :=
  default JUndefined (get_prop v k).

(** [null] or [undefined], as the message of a [TypeError] names it. *)
Definition nullish_text (v : JSValue) : string :=
  match v with
  | JNull => "null"
  | _ => "undefined"
  end.

(** The integers that [Number.prototype.toString] prints digit by digit:
    below [2^53] every integer is a number of its own and has at most 16
    digits. *)
Definition safe_integer (n : Z) : bool := Z.abs n <? 9007199254740992.

(** [`${v}`]: the string conversion of a template literal, for a value
    parsed from JSON.  [None] is the [TypeError] raised for an object
    that has a property [toString] of its own: no parsed value is
    callable, and [Object.prototype.valueOf] returns the object.  An
    array is joined with commas, [null] and [undefined] elements giving
    the empty string; the conversion of an element may raise too.
    [number_text] is the engine's text of a number outside the safe
    integers (shortest digits that read back as the same number, in
    exponent notation from [1e21] on). *)
Fixpoint ToString (number_text : Z -> string) (v : JSValue) : option string :=
  match v with
  | JUndefined => Some "undefined"
  | JNull => Some "null"
  | JBool true => Some "true"
  | JBool false => Some "false"
  | JNum n => Some (if safe_integer n then pretty n else number_text n)
  | JStr s => Some s
  | JArr l =>
      option_map (String.concat ",")
        (fold_right
           (fun x rest =>
              match match x with
                    | JUndefined | JNull => Some ""
                    | _ => ToString number_text x
                    end, rest with
              | Some text, Some texts => Some (text :: texts)
              | _, _ => None
              end)
           (Some []) l)
  | JObj kv =>
      match assoc "toString" kv with
      | Some _ => None
      | None => Some "[object Object]"
      end
  end.

(** ** [String.prototype.trim] *)

Definition bytes (l : list nat) : string :=
  fold_right (fun n s => String (ascii_of_nat n) s) EmptyString l.

(** The UTF-8 encodings of the code points that [trim] removes: WhiteSpace
    (TAB, VT, FF, SP, NBSP, ZWNBSP and the category Zs) and LineTerminator
    (LF, CR, LS, PS). *)
Definition WhiteSpace : list string :=
  Eval cbv in
  map bytes
    [ [9]; [10]; [11]; [12]; [13]; [32];
      [194; 160];
      [225; 154; 128];
      [226; 128; 128]; [226; 128; 129]; [226; 128; 130]; [226; 128; 131];
      [226; 128; 132]; [226; 128; 133]; [226; 128; 134]; [226; 128; 135];
      [226; 128; 136]; [226; 128; 137]; [226; 128; 138];
      [226; 128; 168]; [226; 128; 169]; [226; 128; 175];
      [226; 129; 159];
      [227; 128; 128];
      [239; 187; 191] ]%nat.

(** [strip_prefix p s] is [Some r] when [s = p +:+ r]. *)
Fixpoint strip_prefix (p s : string) : option string :=
  match p with
  | EmptyString => Some s
  | String a p' =>
      match s with
      | String b s' => if Ascii.eqb a b then strip_prefix p' s' else None
      | EmptyString => None
      end
  end.

Fixpoint strip_first (ws : list string) (s : string) : option string :=
  match ws with
  | [] => None
  | w :: ws' =>
      match strip_prefix w s with
      | Some r => Some r
      | None => strip_first ws' s
      end
  end.

(** Removes leading members of [ws] as long as there is one; [fuel] bounds
    the number of removals and the length of the string is enough. *)
Fixpoint strip_all (ws : list string) (fuel : nat) (s : string) : string :=
  match fuel with
  | O => s
  | S fuel' =>
      match strip_first ws s with
      | Some r => strip_all ws fuel' r
      | None => s
      end
  end.

Definition trimStart (s : string) : string :=
  strip_all WhiteSpace (String.length s) s.

Definition trimEnd (s : string) : string :=
  String.rev
    (strip_all (map String.rev WhiteSpace) (String.length s) (String.rev s)).

Definition trim (s : string) : string := trimEnd (trimStart s).

(** A string that is empty or consists only of white space. *)
Inductive Blank : string -> Prop :=
  | Blank_empty : Blank ""
  | Blank_ws (w s : string) : In w WhiteSpace -> Blank s -> Blank (w +:+ s).

(** ** Data model *)

(** [{ id, type, message, time, read }] *)
Record Notification := mkNotification {
  n_id : Z;
  n_type : JSValue;
  n_message : string;
  n_time : string;
  n_read : bool
}.

(** [{ role, content, timestamp, model, tokens }]; [timestamp] is the
    instant whose ISO-8601 text the source stores. *)
Record ChatMessage := mkChatMessage {
  m_role : string;
  m_content : JSValue;
  m_timestamp : Z;
  m_model : JSValue;
  m_tokens : JSValue
}.

(** The [useState] cells of [App] that the handlers below read or write. *)
Record AppState := mkAppState {
  isAuthenticated : bool;
  query : string;
  loading : bool;
  response : JSValue;
  context : JSValue;
  avatars : JSValue;
  tasks : JSValue;
  events : JSValue;
  emails : JSValue;
  contacts : JSValue;
  weather : JSValue;
  notifications : list Notification;
  contactPage : Z;
  chatHistory : list ChatMessage;
  groqLoading : bool;
  groqInput : string
}.

(** The initial values given to [useState]. *)
Definition initialState : AppState :=
  {| isAuthenticated := false; query := ""; loading := false;
     response := JNull; context := JNull; avatars := JArr [];
     tasks := JArr []; events := JArr []; emails := JArr [];
     contacts := JArr []; weather := JNull; notifications := [];
     contactPage := 1; chatHistory := []; groqLoading := false;
     groqInput := "" |}.

Definition itemsPerPage : Z := 5.
Definition API_URL : string := "http://localhost:8000".

(** What [localStorage] holds under a key. *)
Inductive Stored : Type :=
  | StoredAuth (email name : string) (timestamp : Z)
  | StoredFeed (feed : list Notification)
  | StoredChat (history : list ChatMessage).

(** The settled result of [fetch(...)] followed by [res.json()]:
    [fetch] rejects, [json()] rejects, or a value is parsed. *)
Inductive Response : Type :=
  | NetworkError (message : string)
  | Malformed (message : string)
  | Json (v : JSValue).

(** The host the client runs against: the backend as seen through [fetch]
    (time of the call, method, URL, body), and the two engine primitives
    that are not modelled: the comparison [v > 0] for a [v] that is a
    string, an array or an object ([None]: the conversion to a number
    raises a [TypeError]), and the text of a number that is not a safe
    integer. *)
Record Host := mkHost {
  fetch : Z -> string -> string -> JSValue -> Response;
  gt_zero : JSValue -> option bool;
  number_text : Z -> string
}.

(** Calls observed from outside, in the order they are made. *)
Inductive Call : Type :=
  | CFetch (method url : string) (body : JSValue)
  | CAddNotification (type : JSValue) (message : string).

(** The two callbacks handed to [setTimeout]; the first one closes over
    the render that created [handleSubmit]. *)
Inductive Callback : Type :=
  | CbReloadContacts (snap : AppState)
  | CbLoadDashboardData.

Record World := mkWorld {
  app : AppState;
  localStorage : gmap string Stored;
  now : Z;
  timers : list (Z * Callback);
  calls : list (Z * Call)
}.

(** ** Computations: state, exceptions, [try]/[catch]/[finally] *)

Inductive Completion (A : Type) : Type :=
  | Normal (a : A)
  | Thrown (message : string).
Arguments Normal {A} a.
Arguments Thrown {A} message.

(** A statement runs on a world and completes normally or throws an error
    with the given [message]; effects made before a throw remain. *)
Definition Js (A : Type) : Type := World -> World * Completion A.

Definition ret {A} (a : A) : Js A := fun w => (w, Normal a).
Definition throw {A} (message : string) : Js A := fun w => (w, Thrown message).

Definition bind {A B} (m : Js A) (k : A -> Js B) : Js B :=
  fun w =>
    match m w with
    | (w', Normal a) => k a w'
    | (w', Thrown e) => (w', Thrown e)
    end.

Notation "'let!' x ':=' m 'in' k" := (bind m (fun x => k))
  (at level 10, x name, m at level 100, k at level 200).
Notation "m ';;' k" := (bind m (fun _ => k))
  (at level 100, k at level 200, right associativity).

(** [try { body } catch (error) { handler error.message }] *)
Definition try_catch {A} (body : Js A) (handler : string -> Js A) : Js A :=
  fun w =>
    match body w with
    | (w', Normal a) => (w', Normal a)
    | (w', Thrown e) => handler e w'
    end.

(** [try { body } finally { final }] *)
Definition try_finally {A} (body : Js A) (final : Js unit) : Js A :=
  fun w =>
    match body w with
    | (w', c) =>
        match final w' with
        | (w'', Normal _) => (w'', c)
        | (w'', Thrown e) => (w'', Thrown e)
        end
    end.

Definition when (b : bool) (m : Js unit) : Js unit := if b then m else ret tt.

Fixpoint forEach {A} (l : list A) (f : A -> Js unit) : Js unit :=
  match l with
  | [] => ret tt
  | x :: l' => f x ;; forEach l' f
  end.

Definition modify_app (f : AppState -> AppState) : Js unit :=
  fun w => (mkWorld (f (app w)) (localStorage w) (now w) (timers w) (calls w),
            Normal tt).

Definition record_call (c : Call) : Js unit :=
  fun w => (mkWorld (app w) (localStorage w) (now w) (timers w)
              (calls w ++ [(now w, c)]), Normal tt).

Definition setItem (k : string) (v : Stored) : Js unit :=
  fun w => (mkWorld (app w) (<[k := v]> (localStorage w)) (now w) (timers w)
              (calls w), Normal tt).

Definition removeItem (k : string) : Js unit :=
  fun w => (mkWorld (app w) (delete k (localStorage w)) (now w) (timers w)
              (calls w), Normal tt).

(** ** State setters *)

Definition setIsAuthenticated (v : bool) (s : AppState) : AppState :=
  mkAppState v (query s) (loading s) (response s) (context s) (avatars s)
    (tasks s) (events s) (emails s) (contacts s) (weather s)
    (notifications s) (contactPage s) (chatHistory s) (groqLoading s)
    (groqInput s).

Definition setQuery (v : string) (s : AppState) : AppState :=
  mkAppState (isAuthenticated s) v (loading s) (response s) (context s)
    (avatars s) (tasks s) (events s) (emails s) (contacts s) (weather s)
    (notifications s) (contactPage s) (chatHistory s) (groqLoading s)
    (groqInput s).

Definition setLoading (v : bool) (s : AppState) : AppState :=
  mkAppState (isAuthenticated s) (query s) v (response s) (context s)
    (avatars s) (tasks s) (events s) (emails s) (contacts s) (weather s)
    (notifications s) (contactPage s) (chatHistory s) (groqLoading s)
    (groqInput s).

Definition setResponse (v : JSValue) (s : AppState) : AppState :=
  mkAppState (isAuthenticated s) (query s) (loading s) v (context s)
    (avatars s) (tasks s) (events s) (emails s) (contacts s) (weather s)
    (notifications s) (contactPage s) (chatHistory s) (groqLoading s)
    (groqInput s).

Definition setContext (v : JSValue) (s : AppState) : AppState :=
  mkAppState (isAuthenticated s) (query s) (loading s) (response s) v
    (avatars s) (tasks s) (events s) (emails s) (contacts s) (weather s)
    (notifications s) (contactPage s) (chatHistory s) (groqLoading s)
    (groqInput s).

Definition setAvatars (v : JSValue) (s : AppState) : AppState :=
  mkAppState (isAuthenticated s) (query s) (loading s) (response s)
    (context s) v (tasks s) (events s) (emails s) (contacts s) (weather s)
    (notifications s) (contactPage s) (chatHistory s) (groqLoading s)
    (groqInput s).

Definition setTasks (v : JSValue) (s : AppState) : AppState :=
  mkAppState (isAuthenticated s) (query s) (loading s) (response s)
    (context s) (avatars s) v (events s) (emails s) (contacts s) (weather s)
    (notifications s) (contactPage s) (chatHistory s) (groqLoading s)
    (groqInput s).

Definition setEvents (v : JSValue) (s : AppState) : AppState :=
  mkAppState (isAuthenticated s) (query s) (loading s) (response s)
    (context s) (avatars s) (tasks s) v (emails s) (contacts s) (weather s)
    (notifications s) (contactPage s) (chatHistory s) (groqLoading s)
    (groqInput s).

Definition setEmails (v : JSValue) (s : AppState) : AppState :=
  mkAppState (isAuthenticated s) (query s) (loading s) (response s)
    (context s) (avatars s) (tasks s) (events s) v (contacts s) (weather s)
    (notifications s) (contactPage s) (chatHistory s) (groqLoading s)
    (groqInput s).

Definition setContacts (v : JSValue) (s : AppState) : AppState :=
  mkAppState (isAuthenticated s) (query s) (loading s) (response s)
    (context s) (avatars s) (tasks s) (events s) (emails s) v (weather s)
    (notifications s) (contactPage s) (chatHistory s) (groqLoading s)
    (groqInput s).

Definition setWeather (v : JSValue) (s : AppState) : AppState :=
  mkAppState (isAuthenticated s) (query s) (loading s) (response s)
    (context s) (avatars s) (tasks s) (events s) (emails s) (contacts s) v
    (notifications s) (contactPage s) (chatHistory s) (groqLoading s)
    (groqInput s).

Definition setNotifications (v : list Notification) (s : AppState) : AppState :=
  mkAppState (isAuthenticated s) (query s) (loading s) (response s)
    (context s) (avatars s) (tasks s) (events s) (emails s) (contacts s)
    (weather s) v (contactPage s) (chatHistory s) (groqLoading s)
    (groqInput s).

Definition setContactPage (v : Z) (s : AppState) : AppState :=
  mkAppState (isAuthenticated s) (query s) (loading s) (response s)
    (context s) (avatars s) (tasks s) (events s) (emails s) (contacts s)
    (weather s) (notifications s) v (chatHistory s) (groqLoading s)
    (groqInput s).

Definition setChatHistory (v : list ChatMessage) (s : AppState) : AppState :=
  mkAppState (isAuthenticated s) (query s) (loading s) (response s)
    (context s) (avatars s) (tasks s) (events s) (emails s) (contacts s)
    (weather s) (notifications s) (contactPage s) v (groqLoading s)
    (groqInput s).

Definition setGroqLoading (v : bool) (s : AppState) : AppState :=
  mkAppState (isAuthenticated s) (query s) (loading s) (response s)
    (context s) (avatars s) (tasks s) (events s) (emails s) (contacts s)
    (weather s) (notifications s) (contactPage s) (chatHistory s) v
    (groqInput s).

Definition setGroqInput (v : string) (s : AppState) : AppState :=
  mkAppState (isAuthenticated s) (query s) (loading s) (response s)
    (context s) (avatars s) (tasks s) (events s) (emails s) (contacts s)
    (weather s) (notifications s) (contactPage s) (chatHistory s)
    (groqLoading s) v.

(** ** Host primitives *)

Definition Date_now : Js Z := fun w => (w, Normal (now w)).

(** [fetch(url, { method, body })]: the request leaves at once. *)
Definition issue (h : Host) (method url : string) (body : JSValue) : Js Response :=
  record_call (CFetch method url body) ;;
  fun w => (w, Normal (fetch h (now w) method url body)).

(** [await] of the promise returned by [fetch]. *)
Definition settled (r : Response) : Js Response :=
  match r with
  | NetworkError e => throw e
  | _ => ret r
  end.

(** [await res.json()] *)
Definition json (r : Response) : Js JSValue :=
  match r with
  | NetworkError e | Malformed e => throw e
  | Json v => ret v
  end.

(** [Promise.all]: rejects when one of the promises rejects. *)
Definition Promise_all (rs : list Response) : Js unit :=
  forEach rs (fun r => settled r ;; ret tt).

(** [v.k] as a statement; the text of the [TypeError] is the engine's. *)
Definition prop (v : JSValue) (k : string) : Js JSValue :=
  match get_prop v k with
  | Some x => ret x
  | None =>
      throw ("Cannot read properties of " +:+ nullish_text v
             +:+ " (reading '" +:+ k +:+ "')")
  end.

(** [v > 0] *)
Definition js_gt_zero (h : Host) (v : JSValue) : Js bool :=
  match v with
  | JNum n => ret (0 <? n)
  | JBool b => ret b
  | JUndefined | JNull => ret false
  | JStr _ | JArr _ | JObj _ =>
      match gt_zero h v with
      | Some b => ret b
      | None => throw "Cannot convert object to primitive value"
      end
  end.

(** [`${v}`] as a statement. *)
Definition template (h : Host) (v : JSValue) : Js string :=
  match ToString (number_text h) v with
  | Some text => ret text
  | None => throw "Cannot convert object to primitive value"
  end.

(** [v.forEach(f)]: only arrays have the method. *)
Definition call_forEach (path : string) (v : JSValue) (f : JSValue -> Js unit)
  : Js unit :=
  match v with
  | JArr l => forEach l f
  | JUndefined | JNull =>
      throw ("Cannot read properties of " +:+ nullish_text v
             +:+ " (reading 'forEach')")
  | _ => throw (path +:+ ".forEach is not a function")
  end.

Fixpoint contains (p s : string) : bool :=
  String.prefix p s
  || match s with
     | String _ s' => contains p s'
     | EmptyString => false
     end.

(** [v.includes(x)] for a string [x]: arrays compare their elements with
    [x], strings search for it. *)
Definition call_includes (path : string) (v : JSValue) (x : string)
  : Js JSValue :=
  match v with
  | JArr l =>
      ret (JBool (existsb (fun e => match e with
                                    | JStr s => String.eqb s x
                                    | _ => false
                                    end) l))
  | JStr s => ret (JBool (contains x s))
  | JUndefined | JNull =>
      throw ("Cannot read properties of " +:+ nullish_text v
             +:+ " (reading 'includes')")
  | _ => throw (path +:+ ".includes is not a function")
  end.

(** The timer queue is kept in firing order: by time, then by insertion. *)
Fixpoint enqueue (tm : Z * Callback) (q : list (Z * Callback))
  : list (Z * Callback) :=
  match q with
  | [] => [tm]
  | x :: q' => if fst x <=? fst tm then x :: enqueue tm q' else tm :: q
  end.

Definition setTimeout (cb : Callback) (delay : Z) : Js unit :=
  fun w => (mkWorld (app w) (localStorage w) (now w)
              (enqueue (now w + delay, cb) (timers w)) (calls w), Normal tt).

(** ** Notification feed *)

(** [addNotification] (App.jsx 96-101).  [notifications] is the feed of
    the render [snap] the caller closes over. *)
Definition addNotification (snap : AppState) (type : JSValue) (message : string)
  : Js unit :=
  record_call (CAddNotification type message) ;;
  let! id := Date_now in
  let newNotif := mkNotification id type message "Just now" false in
  let updated := take 20%nat (newNotif :: notifications snap) in
  modify_app (setNotifications updated) ;;
  setItem "pos_notifications" (StoredFeed updated).

(** [n => n.id === id ? { ...n, read: true } : n] *)
Definition mark (id : Z) (n : Notification) : Notification :=
  if n_id n =? id
  then mkNotification (n_id n) (n_type n) (n_message n) (n_time n) true
  else n.

(** [markNotificationRead] (App.jsx 294-298) *)
Definition markNotificationRead (snap : AppState) (id : Z) : Js unit :=
  let updated := map (mark id) (notifications snap) in
  modify_app (setNotifications updated) ;;
  setItem "pos_notifications" (StoredFeed updated).

(** ** Resource aggregator *)

(** [loadDashboardData] (App.jsx 103-127) *)
Definition loadDashboardData (h : Host) : Js unit :=
  try_catch
    (let! contextRes := issue h "GET" (API_URL +:+ "/context") JUndefined in
     let! avatarsRes := issue h "GET" (API_URL +:+ "/xp/avatars") JUndefined in
     let! tasksRes := issue h "GET" (API_URL +:+ "/tasks?limit=50") JUndefined in
     let! eventsRes := issue h "GET" (API_URL +:+ "/calendar/today") JUndefined in
     let! weatherRes := issue h "GET" (API_URL +:+ "/weather/current") JUndefined in
     let! emailsRes :=
       issue h "GET" (API_URL +:+ "/email/recent?max_results=50") JUndefined in
     let! contactsRes := issue h "GET" (API_URL +:+ "/contacts") JUndefined in
     Promise_all [contextRes; avatarsRes; tasksRes; eventsRes; weatherRes;
                  emailsRes; contactsRes] ;;
     let! contextData := json contextRes in
     modify_app (setContext contextData) ;;
     let! avatarsData := json avatarsRes in
     let! avatarsField := prop avatarsData "avatars" in
     modify_app (setAvatars (js_or avatarsField (JArr []))) ;;
     let! tasksData := json tasksRes in
     let! tasksField := prop tasksData "tasks" in
     modify_app (setTasks (js_or tasksField (JArr []))) ;;
     let! eventsData := json eventsRes in
     let! eventsField := prop eventsData "events" in
     modify_app (setEvents (js_or eventsField (JArr []))) ;;
     let! weatherData := json weatherRes in
     modify_app (setWeather weatherData) ;;
     let! emailsData := json emailsRes in
     let! emailsField := prop emailsData "emails" in
     modify_app (setEmails (js_or emailsField (JArr []))) ;;
     let! contactData := json contactsRes in
     let! contactsField := prop contactData "contacts" in
     modify_app (setContacts (js_or contactsField (JArr []))))
    (fun _ => ret tt).

(** [loadContacts] (App.jsx 129-138) *)
Definition loadContacts (h : Host) : Js unit :=
  try_catch
    (let! res := issue h "GET" (API_URL +:+ "/contacts") JUndefined in
     let! res := settled res in
     let! data := json res in
     let! contactsField := prop data "contacts" in
     modify_app (setContacts (js_or contactsField (JArr []))))
    (fun _ => ret tt).

(** ** Command dispatcher *)

(** [handleSubmit] (App.jsx 140-177) *)
Definition handleSubmit (h : Host) (snap : AppState) : Js unit :=
  if negb (truthy (JStr (trim (query snap)))) then ret tt else
  modify_app (setLoading true) ;;
  try_finally
    (try_catch
       (let! res :=
          issue h "POST" (API_URL +:+ "/process")
            (JObj [("query", JStr (query snap))]) in
        let! res := settled res in
        let! data := json res in
        modify_app (setResponse data) ;;
        let! agents := prop data "agents" in
        (if truthy agents then
           let! len := prop agents "length" in
           let! positive := js_gt_zero h len in
           when positive
             (call_forEach "data.agents" agents (fun agent =>
                let! name := template h agent in
                addNotification snap agent
                  ("✓ " +:+ name +:+ " Agent activated")))
         else ret tt) ;;
        modify_app (setQuery "") ;;
        let! isContactAction :=
          (if truthy agents
           then call_includes "data.agents" agents "contact"
           else ret agents) in
        when (truthy isContactAction)
          (setTimeout (CbReloadContacts snap) 500) ;;
        setTimeout CbLoadDashboardData 1500)
       (fun message =>
          modify_app
            (setResponse (JObj [("response", JStr "Error processing request");
                                ("error", JStr message)])) ;;
          addNotification snap (JStr "system") ("❌ Error: " +:+ message)))
    (modify_app (setLoading false)).

(** The callback [async () => { await loadContacts();
    addNotification('contact', '✓ Contacts updated'); }] (App.jsx 162-165)
    and [loadDashboardData] (App.jsx 168), when their timers fire. *)
Definition run_callback (h : Host) (cb : Callback) (w : World) : World :=
  match cb with
  | CbReloadContacts snap =>
      fst ((loadContacts h ;;
            addNotification snap (JStr "contact") "✓ Contacts updated") w)
  | CbLoadDashboardData => fst (loadDashboardData h w)
  end.



(** ** Chat session *)

(** [saveChatHistory] (App.jsx 85-87) *)
Definition saveChatHistory (history : list ChatMessage) : Js unit :=
  setItem "pos_chat_history" (StoredChat history).

(** [handleGroqChat] (App.jsx 179-233) *)
Definition handleGroqChat (h : Host) (snap : AppState) : Js unit :=
  if negb (truthy (JStr (trim (groqInput snap)))) then ret tt else
  let! stamp := Date_now in
  let userMessage :=
    mkChatMessage "user" (JStr (groqInput snap)) stamp JUndefined JUndefined in
  let updatedHistory := (chatHistory snap ++ [userMessage]) in
  modify_app (setChatHistory updatedHistory) ;;
  saveChatHistory updatedHistory ;;
  modify_app (setGroqInput "") ;;
  modify_app (setGroqLoading true) ;;
  try_finally
    (try_catch
       (let! task_backlog := prop (tasks snap) "length" in
        let energy_level := get_prop_opt (context snap) "energy_level" in
        let condition := get_prop_opt (weather snap) "condition" in
        let! upcoming_events := prop (events snap) "length" in
        let! res :=
          issue h "POST" (API_URL +:+ "/groq/chat")
            (JObj [("message", m_content userMessage);
                   ("context",
                    JObj [("task_backlog", task_backlog);
                          ("energy_level", energy_level);
                          ("weather", condition);
                          ("upcoming_events", upcoming_events)])]) in
        let! res := settled res in
        let! data := json res in
        let! success := prop data "success" in
        if truthy success then
          let! content := prop data "response" in
          let! stamp' := Date_now in
          let! model := prop data "model" in
          let! tokens := prop data "tokens_used" in
          let aiMessage := mkChatMessage "assistant" content stamp' model tokens in
          let finalHistory := (updatedHistory ++ [aiMessage]) in
          modify_app (setChatHistory finalHistory) ;;
          saveChatHistory finalHistory ;;
          addNotification snap (JStr "groq") "🤖 Martin responded"
        else
          let! error := prop data "error" in
          let! reason := template h error in
          addNotification snap (JStr "groq") ("❌ Error: " +:+ reason))
       (fun message =>
          addNotification snap (JStr "groq") ("❌ Chat error: " +:+ message)))
    (modify_app (setGroqLoading false)).

(** ** Sign-out *)

(** The [onClick] of the Sign Out button of [ProfilePanel] (App.jsx 484) *)
Definition signOut : Js unit :=
  removeItem "pos_auth" ;;
  removeItem "pos_notifications" ;;
  modify_app (setIsAuthenticated false).

(** ** Pagination *)

(** [Array.prototype.slice(start, end)]: relative indices are clamped to
    the array. *)
Definition js_slice {A} (l : list A) (start stop : Z) : list A :=
  let len := Z.of_nat (length l) in
  let k := if start <? 0 then Z.max (len + start) 0 else Z.min start len in
  let final := if stop <? 0 then Z.max (len + stop) 0 else Z.min stop len in
  take (Z.to_nat (final - k)) (drop (Z.to_nat k) l).

(** The two lines every paginated view starts with (App.jsx 508-509,
    871-872, 915-916, 955-956). *)
Definition paginate {A} (items : list A) (page : Z) : list A :=
  let startIndex := (page - 1) * itemsPerPage in
  js_slice items startIndex (startIndex + itemsPerPage).

(** [paginatedContacts] of [ContactView]; [None] when [contacts] is not an
    array and rendering throws. *)
Definition paginatedContacts (snap : AppState) : option (list JSValue) :=
  match contacts snap with
  | JArr l => Some (paginate l (contactPage snap))
  | _ => None
  end.

(** [Math.ceil(totalItems / perPage)] for a positive [perPage]. *)
Definition totalPages (totalItems perPage : Z) : Z :=
  - ((- totalItems) / perPage).

(** What [Pagination] renders (App.jsx 415-431): nothing when there is at
    most one page, else the two buttons; a button carries the page its
    click hands to [onPageChange], or [None] when it is disabled. *)
Record PaginationView := mkPaginationView {
  previous : option Z;
  label : Z * Z;
  next : option Z
}.

Definition Pagination (currentPage totalItems perPage : Z)
  : option PaginationView :=
  let total := totalPages totalItems perPage in
  if total <=? 1 then None
  else Some (mkPaginationView
               (if currentPage =? 1 then None else Some (currentPage - 1))
               (currentPage, total)
               (if currentPage =? total then None else Some (currentPage + 1))).

(** A click on one of the two buttons of the contact list's [Pagination]:
    [onPageChange] is [setContactPage]; a disabled button does nothing. *)
Definition clickPage (target : option Z) : Js unit :=
  match target with
  | Some page => modify_app (setContactPage page)
  | None => ret tt
  end.

(** ** Sequences of pushes

    A push is a call of [addNotification] at some clock reading, made by a
    handler that closes over the current render ([p_age = 0]) or over an
    earlier one (a timer callback, a continuation after an [await]). *)
Record PushCall := mkPushCall {
  p_age : nat;
  p_now : Z;
  p_type : JSValue;
  p_message : string
}.

Definition at_time (t : Z) (w : World) : World :=
  mkWorld (app w) (localStorage w) t (timers w) (calls w).

(** [renders] are the states of the earlier renders, latest first. *)
Fixpoint run_pushes (renders : list AppState) (ps : list PushCall) (w : World)
  : World :=
  match ps with
  | [] => w
  | p :: ps' =>
      let snap := nth (p_age p) (app w :: renders) (app w) in
      run_pushes (app w :: renders) ps'
        (fst (addNotification snap (p_type p) (p_message p)
                (at_time (p_now p) w)))
  end.

(** The notification a push creates. *)
Definition created (p : PushCall) : Notification :=
  mkNotification (p_now p) (p_type p) (p_message p) "Just now" false.

(** A render shows at most 20 notifications, which appear in [base] in
    the order of its feed. *)
Definition within (base : list Notification) (s : AppState) : Prop :=
  sublist (notifications s) base /\ (length (notifications s) <= 20)%nat.

(** The calls of [addNotification] among the observed calls. *)
Definition pushes_of (cs : list (Z * Call)) : list (JSValue * string) :=
  flat_map (fun c => match snd c with
                     | CAddNotification type message => [(type, message)]
                     | CFetch _ _ _ => []
                     end) cs.

(** The seven requests of a full refresh, as observed at time [t]. *)
Definition dashboard_requests (t : Z) : list (Z * Call) :=
  map (fun path => (t, CFetch "GET" (API_URL +:+ path) JUndefined))
    ["/context"; "/xp/avatars"; "/tasks?limit=50"; "/calendar/today";
     "/weather/current"; "/email/recent?max_results=50"; "/contacts"].

(** ** The collections of the aggregator *)

Inductive Collection : Type := Avatars | Tasks | Events | Emails | Contacts.

Definition collection (c : Collection) (s : AppState) : JSValue :=
  match c with
  | Avatars => avatars s
  | Tasks => tasks s
  | Events => events s
  | Emails => emails s
  | Contacts => contacts s
  end.

Definition field_name (c : Collection) : string :=
  match c with
  | Avatars => "avatars"
  | Tasks => "tasks"
  | Events => "events"
  | Emails => "emails"
  | Contacts => "contacts"
  end.

Definition endpoint (c : Collection) : string :=
  match c with
  | Avatars => "/xp/avatars"
  | Tasks => "/tasks?limit=50"
  | Events => "/calendar/today"
  | Emails => "/email/recent?max_results=50"
  | Contacts => "/contacts"
  end.

(** The answer of the backend to the request a full refresh makes for a
    collection at time [t]. *)
Definition sub_response (h : Host) (t : Z) (c : Collection) : Response :=
  fetch h t "GET" (API_URL +:+ endpoint c) JUndefined.

(** ** The stages of a full refresh *)

(** The seven cells a full refresh sets. *)
Inductive Cell : Type :=
  | ContextCell | AvatarsCell | TasksCell | EventsCell | WeatherCell
  | EmailsCell | ContactsCell.

(** The cells in the order in which [loadDashboardData] requests and then
    sets them (App.jsx 106-122). *)
Definition stages : list Cell :=
  [ContextCell; AvatarsCell; TasksCell; EventsCell; WeatherCell; EmailsCell;
   ContactsCell].

Definition stage_index (c : Cell) : nat :=
  match c with
  | ContextCell => 0 | AvatarsCell => 1 | TasksCell => 2 | EventsCell => 3
  | WeatherCell => 4 | EmailsCell => 5 | ContactsCell => 6
  end.

(** The stages that run before the one of [c]. *)
Definition earlier (c : Cell) : list Cell := take (stage_index c) stages.

Definition cell (c : Cell) (s : AppState) : JSValue :=
  match c with
  | ContextCell => context s
  | AvatarsCell => avatars s
  | TasksCell => tasks s
  | EventsCell => events s
  | WeatherCell => weather s
  | EmailsCell => emails s
  | ContactsCell => contacts s
  end.

Definition cell_path (c : Cell) : string :=
  match c with
  | ContextCell => "/context"
  | AvatarsCell => "/xp/avatars"
  | TasksCell => "/tasks?limit=50"
  | EventsCell => "/calendar/today"
  | WeatherCell => "/weather/current"
  | EmailsCell => "/email/recent?max_results=50"
  | ContactsCell => "/contacts"
  end.

(** The field a stage unwraps; the context and the weather are stored
    whole. *)
Definition cell_field (c : Cell) : option string :=
  match c with
  | ContextCell | WeatherCell => None
  | AvatarsCell => Some "avatars"
  | TasksCell => Some "tasks"
  | EventsCell => Some "events"
  | EmailsCell => Some "emails"
  | ContactsCell => Some "contacts"
  end.

(** The cell of a collection. *)
Definition cell_of (c : Collection) : Cell :=
  match c with
  | Avatars => AvatarsCell
  | Tasks => TasksCell
  | Events => EventsCell
  | Emails => EmailsCell
  | Contacts => ContactsCell
  end.

Definition stage_response (h : Host) (t : Z) (c : Cell) : Response :=
  fetch h t "GET" (API_URL +:+ cell_path c) JUndefined.

(** What the stage of [c] hands to its setter: [await res.json()] or
    [(await res.json()).field || []]; [None] when this throws. *)
Definition stage_value (h : Host) (t : Z) (c : Cell) : option JSValue :=
  match stage_response h t c with
  | Json data =>
      match cell_field c with
      | None => Some data
      | Some field =>
          match get_prop data field with
          | Some x => Some (js_or x (JArr []))
          | None => None
          end
      end
  | _ => None
  end.

Definition parses (h : Host) (t : Z) (c : Cell) : bool :=
  match stage_value h t c with
  | Some _ => true
  | None => false
  end.

(** [setX v] for the cell [c]. *)
Definition set_cell (c : Cell) (v : JSValue) (s : AppState) : AppState :=
  match c with
  | ContextCell => setContext v s
  | AvatarsCell => setAvatars v s
  | TasksCell => setTasks v s
  | EventsCell => setEvents v s
  | WeatherCell => setWeather v s
  | EmailsCell => setEmails v s
  | ContactsCell => setContacts v s
  end.

(** The setters of a full refresh, one after the other, up to the first
    body that cannot be unwrapped (App.jsx 115-122). *)
Fixpoint run_stages (h : Host) (t : Z) (cs : list Cell) (s : AppState)
  : AppState :=
  match cs with
  | [] => s
  | c :: cs' =>
      match stage_value h t c with
      | Some v => run_stages h t cs' (set_cell c v s)
      | None => s
      end
  end.

Definition answered (r : Response) : bool :=
  match r with
  | NetworkError _ => false
  | _ => true
  end.

(** The state a full refresh made at time [t] leaves: nothing is set when
    [Promise.all] rejects (App.jsx 105-113). *)
Definition refreshed (h : Host) (t : Z) (s : AppState) : AppState :=
  if forallb answered (map (stage_response h t) stages)
  then run_stages h t stages s
  else s.




(** The text of an agent in its activation notification. *)
Definition agent_name (h : Host) (agent : JSValue) : string :=
  default "" (ToString (number_text h) agent).

(** ** Example hosts and worlds

    The examples hold no number outside the safe integers; their hosts
    print every number digit by digit. *)

Definition emptyWorld : World := mkWorld initialState ∅ 0 [] [].

Definition offline : Host :=
  mkHost (fun _ _ _ _ => NetworkError "Failed to fetch") (fun _ => Some false)
    pretty.

(** A backend whose router activates the task and the contact agent. *)
Definition router (url : string) : Response :=
  if String.eqb url (API_URL +:+ "/process")
  then Json (JObj [("response", JStr "Added");
                   ("agents", JArr [JStr "task"; JStr "contact"])])
  else if String.eqb url (API_URL +:+ "/groq/chat")
  then Json (JObj [("success", JBool false); ("error", JStr "rate limited")])
  else if String.eqb url (API_URL +:+ "/tasks?limit=50")
  then Json (JObj [("tasks", JStr "oops")])
  else if String.eqb url (API_URL +:+ "/calendar/today")
  then Json (JObj [])
  else if String.eqb url (API_URL +:+ "/contacts")
  then Json (JObj [("contacts",
                    JArr [JStr "Ann"; JStr "Bob"; JStr "Cy"; JStr "Di"])])
  else Json (JObj []).

Definition backend : Host :=
  mkHost (fun _ _ url _ => router url) (fun _ => Some false) pretty.

(** A backend whose assistant answers. *)
Definition assistant : Host :=
  mkHost (fun _ _ _ _ =>
            Json (JObj [("success", JBool true); ("response", JStr "Hi");
                        ("model", JStr "llama"); ("tokens_used", JNum 12)]))
         (fun _ => Some false) pretty.

(** The render in which [text] has been typed in both inputs. *)
Definition typing (text : string) : AppState :=
  setGroqInput text (setQuery text initialState).

(** Twelve contacts on screen. *)
Definition twelve : list JSValue := map JNum [1; 2; 3; 4; 5; 6; 7; 8; 9; 10; 11; 12].

Definition twelveContacts : World :=
  mkWorld (setContacts (JArr twelve) initialState) ∅ 0 [] [].

(** From page 1 of twelve contacts: two clicks on "next", then a contact
    refresh to which the backend answers with four contacts. *)
Definition afterShrink : World :=
  let click w :=
    match Pagination (contactPage (app w)) (Z.of_nat (length twelve)) itemsPerPage with
    | Some view => fst (clickPage (next view) w)
    | None => w
    end in
  fst (loadContacts backend (click (click twelveContacts))).



(** A computation [keeps] an observation of the world when running it
    leaves the observation as it was. *)
Definition keeps {X A} (obs : World -> X) (m : Js A) : Prop :=
  forall w, obs (fst (m w)) = obs w.

(** What a computation that neither calls the network, nor pushes a
    notification, nor sets a timer leaves alone. *)
Definition surroundings (w : World) : Z * list (Z * Callback) * list (Z * Call) :=
  (now w, timers w, calls w).

Definition page_of (w : World) : Z := contactPage (app w).

(** * The rest of the orchestration layer *)

(** ** Loading and clearing the persisted feed and transcript

    A key of the storage is written by the program with one kind of value
    only; a value of another kind under the key is not modelled and the
    loaders below then leave the state as it is. *)

(** [loadNotifications] (App.jsx 89-94) *)
Definition loadNotifications : Js unit :=
  fun w =>
    match localStorage w !! "pos_notifications" with
    | Some (StoredFeed feed) => modify_app (setNotifications feed) w
    | _ => (w, Normal tt)
    end.

(** [loadChatHistory] (App.jsx 78-83) *)
Definition loadChatHistory : Js unit :=
  fun w =>
    match localStorage w !! "pos_chat_history" with
    | Some (StoredChat history) => modify_app (setChatHistory history) w
    | _ => (w, Normal tt)
    end.

(** [clearChatHistory] (App.jsx 235-239) *)
Definition clearChatHistory (snap : AppState) : Js unit :=
  modify_app (setChatHistory []) ;;
  removeItem "pos_chat_history" ;;
  addNotification snap (JStr "groq") "🧹 Chat history cleared".

(** The [onClick] of "Mark all as read" in [NotificationPanel]
    (App.jsx 455-459) *)
Definition markAllRead (snap : AppState) : Js unit :=
  let updated :=
    map (fun n => mkNotification (n_id n) (n_type n) (n_message n)
                    (n_time n) true) (notifications snap) in
  modify_app (setNotifications updated) ;;
  setItem "pos_notifications" (StoredFeed updated).

(** The number on the bell: [notifications.filter(n => !n.read).length]
    (App.jsx 1047-1049) *)
Definition unreadCount (feed : list Notification) : nat :=
  length (List.filter (fun n => negb (n_read n)) feed).

(** ** [fixEncoding] *)

(** [s.replace(/pat/g, rep)] for a non-empty pattern without
    metacharacters and a replacement without [$]: the occurrences of
    [pat] are replaced from left to right, without overlap.  [skip]
    counts the characters of the current match still to be passed. *)
Fixpoint replace_from (pat rep : string) (skip : nat) (s : string) : string :=
  match s with
  | EmptyString => EmptyString
  | String c s' =>
      match skip with
      | S k => replace_from pat rep k s'
      | O =>
          if String.prefix pat s
          then rep +:+ replace_from pat rep (String.length pat - 1) s'
          else String c (replace_from pat rep 0 s')
      end
  end.

Definition replace_all (pat rep s : string) : string := replace_from pat rep 0 s.

(** The five patterns of [fixEncoding] (App.jsx 10-14), byte for byte; all
    of them start with the four bytes of [garbled]. *)
Definition garbled : string := Eval cbv in bytes [195; 131; 194; 162]%nat.
Definition garbled_check : string :=
  Eval cbv in
  bytes [195; 131; 194; 162; 195; 133; 34; 195; 162; 226; 130; 172; 194; 166]%nat.
Definition garbled_ellipsis : string :=
  Eval cbv in
  bytes [195; 131; 194; 162; 195; 162; 226; 128; 154; 194; 172; 195; 130;
         194; 166]%nat.
Definition garbled_open_quote : string :=
  Eval cbv in
  bytes [195; 131; 194; 162; 195; 162; 226; 128; 154; 194; 172; 195; 133;
         34]%nat.
Definition garbled_close_quote : string :=
  Eval cbv in
  bytes [195; 131; 194; 162; 195; 162; 226; 128; 154; 194; 172; 195;
         130]%nat.
Definition garbled_bullet : string :=
  Eval cbv in
  bytes [195; 131; 194; 162; 195; 162; 226; 128; 154; 194; 172; 195; 130;
         194; 162]%nat.

Definition double_quote : string := String (ascii_of_nat 34) EmptyString.

(** The first four replacements of [fixEncoding], in order. *)
Definition fix_quotes (text : string) : string :=
  replace_all garbled_close_quote double_quote
    (replace_all garbled_open_quote double_quote
       (replace_all garbled_ellipsis "…"
          (replace_all garbled_check "✓" text))).

(** [fixEncoding] (App.jsx 7-15); [None] is the [TypeError] raised when
    [text] is truthy and has no [replace] method. *)
Definition fixEncoding (text : JSValue) : option JSValue :=
  if negb (truthy text) then Some text
  else match text with
       | JStr s => Some (JStr (replace_all garbled_bullet "•" (fix_quotes s)))
       | _ => None
       end.

Fixpoint has_char (q : ascii) (s : string) : bool :=
  match s with
  | EmptyString => false
  | String c s' => Ascii.eqb q c || has_char q s'
  end.

(** ** Session: sign-in and restoring the session *)

(** The cells of [App] and [AuthScreen] that only the session code
    writes. *)
Record Shell := mkShell {
  userName : string;
  userEmail : string;
  authLoading : bool;
  authError : string
}.

(** The effect run when [App] is mounted (App.jsx 50-61).
    [loadDashboardData] is not awaited: its requests leave at once and
    its continuation writes cells that the two loaders neither read nor
    write, so that running it first gives the same world. *)
Definition restoreSession (h : Host) (w : World) (sh : Shell) : World * Shell :=
  match localStorage w !! "pos_auth" with
  | Some (StoredAuth email name _) =>
      (fst ((modify_app (setIsAuthenticated true) ;;
             loadDashboardData h ;;
             loadNotifications ;;
             loadChatHistory) w),
       mkShell name email (authLoading sh) (authError sh))
  | _ => (w, sh)
  end.

(** [email.split('@')[0]] *)
Fixpoint before_at (s : string) : string :=
  match s with
  | EmptyString => EmptyString
  | String c s' =>
      if Ascii.eqb c (ascii_of_nat 64) then EmptyString
      else String c (before_at s')
  end.

(** Number of bytes of the code point a string starts with. *)
Definition first_size (s : string) : nat :=
  match s with
  | EmptyString => 0%nat
  | String c _ =>
      let b := nat_of_ascii c in
      if (b <? 192)%nat then 1%nat
      else if (b <? 224)%nat then 2%nat
      else if (b <? 240)%nat then 3%nat
      else 4%nat
  end.

Fixpoint string_take (n : nat) (s : string) : string :=
  match n, s with
  | S k, String c s' => String c (string_take k s')
  | _, _ => EmptyString
  end.

Fixpoint string_drop (n : nat) (s : string) : string :=
  match n, s with
  | S k, String _ s' => string_drop k s'
  | _, _ => s
  end.

(** [s.charAt(0).toUpperCase() + s.slice(1)].  [upper] is the engine's
    [toUpperCase] on a string of one character.  A string that starts
    with a character outside the basic plane is cut between the two
    halves of that character, which [toUpperCase] leaves alone: the
    result is the string itself. *)
Definition capitalize (upper : string -> string) (s : string) : string :=
  match first_size s with
  | 0%nat => EmptyString
  | 4%nat => s
  | n => upper (string_take n s) +:+ string_drop n s
  end.

(** The callback that [handleAuth] (App.jsx 323-349) hands to
    [setTimeout]; [email], [password] and [showLogin] are those of the
    render in which the form was submitted.  [loadDashboardData] is not
    awaited: its requests leave before [addNotification] is called and
    its continuation writes cells that [addNotification] neither reads
    nor writes, so that running it first gives the same world. *)
Definition authenticate (upper : string -> string) (h : Host) (snap : AppState)
    (email password : string) (showLogin : bool) (w : World) (sh : Shell)
  : World * Shell :=
  if negb (String.eqb email "") && negb (String.eqb password "") then
    if negb showLogin && (utf16_length password <? 6) then
      (w, mkShell (userName sh) (userEmail sh) false
            "Password must be at least 6 characters")
    else
      let name := capitalize upper (before_at email) in
      (fst ((setItem "pos_auth" (StoredAuth email name (now w)) ;;
             modify_app (setIsAuthenticated true) ;;
             loadDashboardData h ;;
             addNotification snap (JStr "system")
               (if showLogin then "👋 Welcome back, " +:+ name +:+ "!"
                else "🎉 Account created!")) w),
       mkShell name email false (authError sh))
  else
    (w, mkShell (userName sh) (userEmail sh) false "Please fill all fields").

(** [handleAuth] (App.jsx 323-349): the error is cleared and the form
    disabled at once; the callback runs one second later (what happens in
    between is not modelled). *)
Definition handleAuth (upper : string -> string) (h : Host) (snap : AppState)
    (email password : string) (showLogin : bool) (w : World) (sh : Shell)
  : World * Shell :=
  authenticate upper h snap email password showLogin w
    (mkShell (userName sh) (userEmail sh) true "").

(** ** Observations used to state what a handler leaves alone *)

Definition chat_cells (s : AppState) : list ChatMessage * string * bool :=
  (chatHistory s, groqInput s, groqLoading s).

Definition dispatch_cells (s : AppState) : string * bool * JSValue :=
  (query s, loading s, response s).

Definition collections_of (s : AppState) : list JSValue :=
  [context s; avatars s; tasks s; events s; emails s; contacts s; weather s].

(** A computation that completes normally on every world. *)
Definition safe (m : Js unit) : Prop := forall w, snd (m w) = Normal tt.

(** The notification announcing that [agent], whose text is [name], was
    activated. *)
Definition activation (t : Z) (agent : JSValue) (name : string) : Notification :=
  mkNotification t agent ("✓ " +:+ name +:+ " Agent activated") "Just now" false.

Definition is_contact (e : JSValue) : bool :=
  match e with
  | JStr s => String.eqb s "contact"
  | _ => false
  end.

(** ASCII upper-casing, the [toUpperCase] of the examples. *)
Definition ascii_upper (s : string) : string :=
  match s with
  | String c EmptyString =>
      let b := nat_of_ascii c in
      if (97 <=? b)%nat && (b <=? 122)%nat
      then String (ascii_of_nat (b - 32)) EmptyString
      else s
  | _ => s
  end.

(** Everything a submit leaves alone. *)
Definition beside_submit (w : World) :=
  (chat_cells (app w), collections_of (app w), contactPage (app w),
   isAuthenticated (app w), now w,
   delete "pos_notifications" (localStorage w)).

(** Everything a chat send leaves alone. *)
Definition beside_chat (w : World) :=
  (dispatch_cells (app w), collections_of (app w), contactPage (app w),
   isAuthenticated (app w), now w, timers w,
   delete "pos_chat_history" (delete "pos_notifications" (localStorage w))).

(** ** Observations of a refresh *)

(** Everything a refresh leaves alone. *)
Definition beside_refresh (w : World) :=
  (dispatch_cells (app w), chat_cells (app w), notifications (app w),
   contactPage (app w), isAuthenticated (app w), localStorage w, now w,
   timers w).

(** A backend that answers the request for the tasks with a page that is
    not JSON. *)
Definition brokenTasks : Host :=
  mkHost (fun _ _ url _ =>
            if String.eqb url (API_URL +:+ "/tasks?limit=50")
            then Malformed "Unexpected token < in JSON at position 0"
            else router url)
         (fun _ => Some false) pretty.

(** ** Pages *)

(** The pages of a collection of [n] items: 1 to [Math.ceil(n / 5)]. *)
Definition pages (n : Z) : list Z :=
  map Z.of_nat (seq 1 (Z.to_nat (totalPages n itemsPerPage))).

(** A click on the next ([forward]) or the previous button that
    [Pagination] renders for [page] when the collection has [n] items;
    nothing happens when the button is disabled or not rendered. *)
Definition click_button (page : Z) (click : bool * Z) : Z :=
  let (forward, n) := click in
  match Pagination page n itemsPerPage with
  | Some view =>
      match (if forward then next view else previous view) with
      | Some target => target
      | None => page
      end
  | None => page
  end.

(** Clicks one after the other, each with the size the collection has at
    that moment. *)
Definition browse (clicks : list (bool * Z)) (page : Z) : Z :=
  fold_left click_button clicks page.

(** ** Reloading the page *)

(** The page is loaded again: the cells start from their initial values
    and the timers are gone; the storage is kept. *)
Definition reloaded (w : World) : World :=
  mkWorld initialState (localStorage w) (now w) [] (calls w).

Definition blankShell : Shell := mkShell "" "" false "".

(** The text of the notification pushed after a sign-in. *)
Definition greeting (showLogin : bool) (name : string) : string :=
  if showLogin then "👋 Welcome back, " +:+ name +:+ "!"
  else "🎉 Account created!".

(** * Proofs *)

(** ** Running computations *)

(** Unfolds the monad and the host primitives on a world. *)
Ltac run_js :=
  cbv beta iota zeta delta
    [try_finally try_catch bind issue settled json prop when forEach
     record_call modify_app setItem removeItem setTimeout Date_now
     ret throw addNotification saveChatHistory];
  cbn [now app localStorage timers calls fst snd].

Lemma bind_normal {A B} (m : Js A) (k : A -> Js B) (w w' : World) (a : A) :
  m w = (w', Normal a) -> bind m k w = k a w'.
Proof. intros H. unfold bind. now rewrite H. Qed.

Lemma prop_normal (v x : JSValue) (k : string) (w : World) :
  get_prop v k = Some x -> prop v k w = (w, Normal x).
Proof. intros H. unfold prop. now rewrite H. Qed.

Lemma issue_bind {B} (h : Host) (method url : string) (body : JSValue)
    (k : Response -> Js B) (w : World) :
  bind (issue h method url body) k w
  = k (fetch h (now w) method url body)
      (mkWorld (app w) (localStorage w) (now w) (timers w)
         (calls w ++ [(now w, CFetch method url body)])).
Proof. reflexivity. Qed.

Lemma try_catch_swallow (body : Js unit) (w : World) :
  fst (try_catch body (fun _ => ret tt) w) = fst (body w).
Proof. unfold try_catch. now destruct (body w) as [w' [[] | e]]. Qed.

Lemma try_catch_swallow_normal (body : Js unit) (w : World) :
  snd (try_catch body (fun _ => ret tt) w) = Normal tt.
Proof. unfold try_catch. now destruct (body w) as [w' [[] | e]]. Qed.

(** One statement that completes normally. *)
Ltac step_js :=
  erewrite bind_normal;
  [| first [ reflexivity | apply prop_normal; eassumption ] ];
  cbv beta; cbn [now app localStorage timers calls].

(** ** What a computation leaves alone *)

Section Keeps.
Context {X : Type} (obs : World -> X).

Lemma keeps_ret {A} (a : A) : keeps obs (ret a).
Proof. intros w. reflexivity. Qed.

Lemma keeps_throw {A} (e : string) : keeps obs (@throw A e).
Proof. intros w. reflexivity. Qed.

Lemma keeps_bind {A B} (m : Js A) (k : A -> Js B) :
  keeps obs m -> (forall a, keeps obs (k a)) -> keeps obs (bind m k).
Proof.
  intros Hm Hk w. unfold bind. specialize (Hm w).
  destruct (m w) as [w' [a | e]]; cbn [fst] in *.
  - now rewrite Hk.
  - exact Hm.
Qed.

Lemma keeps_try_catch {A} (m : Js A) (k : string -> Js A) :
  keeps obs m -> (forall e, keeps obs (k e)) -> keeps obs (try_catch m k).
Proof.
  intros Hm Hk w. unfold try_catch. specialize (Hm w).
  destruct (m w) as [w' [a | e]]; cbn [fst] in *.
  - exact Hm.
  - now rewrite Hk.
Qed.

Lemma keeps_settled (r : Response) : keeps obs (settled r).
Proof. destruct r; intros w; reflexivity. Qed.

Lemma keeps_json (r : Response) : keeps obs (json r).
Proof. destruct r; intros w; reflexivity. Qed.

Lemma keeps_prop (v : JSValue) (k : string) : keeps obs (prop v k).
Proof. unfold prop. destruct (get_prop v k); intros w; reflexivity. Qed.

Lemma keeps_forEach {A} (l : list A) (f : A -> Js unit) :
  (forall x, keeps obs (f x)) -> keeps obs (forEach l f).
Proof.
  intros Hf. induction l as [| x l IH]; cbn [forEach].
  - apply keeps_ret.
  - apply keeps_bind; [apply Hf | intros _; exact IH].
Qed.

Lemma keeps_Promise_all (rs : list Response) : keeps obs (Promise_all rs).
Proof.
  apply keeps_forEach. intros r.
  apply keeps_bind; [apply keeps_settled | intros _; apply keeps_ret].
Qed.
End Keeps.

Lemma surroundings_modify_app (f : AppState -> AppState) :
  keeps surroundings (modify_app f).
Proof. intros w. reflexivity. Qed.

Lemma page_modify_app (f : AppState -> AppState) :
  (forall s, contactPage (f s) = contactPage s) -> keeps page_of (modify_app f).
Proof. intros H w. apply H. Qed.

Lemma page_issue (h : Host) (method url : string) (body : JSValue) :
  keeps page_of (issue h method url body).
Proof. intros w. reflexivity. Qed.

Ltac keeps_tac :=
  repeat match goal with
  | |- keeps _ (bind _ _) => apply keeps_bind; [| intros ?]
  | |- keeps _ (try_catch _ _) => apply keeps_try_catch; [| intros ?]
  | |- keeps _ (ret _) => apply keeps_ret
  | |- keeps _ (throw _) => apply keeps_throw
  | |- keeps _ (settled _) => apply keeps_settled
  | |- keeps _ (json _) => apply keeps_json
  | |- keeps _ (prop _ _) => apply keeps_prop
  | |- keeps _ (Promise_all _) => apply keeps_Promise_all
  | |- keeps surroundings (modify_app _) => apply surroundings_modify_app
  | |- keeps page_of (modify_app _) => apply page_modify_app; reflexivity
  | |- keeps page_of (issue _ _ _ _) => apply page_issue
  end.

Lemma surroundings_eq (w w' : World) :
  surroundings w' = surroundings w ->
  now w' = now w /\ timers w' = timers w /\ calls w' = calls w.
Proof. unfold surroundings. intros H. injection H. auto. Qed.

Lemma pushes_of_app (a b : list (Z * Call)) :
  pushes_of (a ++ b) = pushes_of a ++ pushes_of b.
Proof. unfold pushes_of. apply flat_map_app. Qed.

Lemma pushes_of_fetch (t : Z) (method url : string) (body : JSValue) :
  pushes_of [(t, CFetch method url body)] = [].
Proof. reflexivity. Qed.

Lemma pushes_of_push (t : Z) (type : JSValue) (message : string) :
  pushes_of [(t, CAddNotification type message)] = [(type, message)].
Proof. reflexivity. Qed.

Ltac pushes :=
  rewrite ?pushes_of_app, ?pushes_of_fetch, ?pushes_of_push, ?app_nil_r.

(** ** Handlers as equations *)

Lemma bind_thrown {A B} (m : Js A) (k : A -> Js B) (w w' : World) (e : string) :
  m w = (w', Thrown e) -> bind m k w = (w', Thrown e).
Proof. intros H. unfold bind. now rewrite H. Qed.

Lemma bind_modify_app {B} (f : AppState -> AppState) (k : unit -> Js B) (w : World) :
  bind (modify_app f) k w
  = k tt (mkWorld (f (app w)) (localStorage w) (now w) (timers w) (calls w)).
Proof. reflexivity. Qed.

Lemma bind_setItem {B} (k : string) (v : Stored) (K : unit -> Js B) (w : World) :
  bind (setItem k v) K w
  = K tt (mkWorld (app w) (<[k := v]> (localStorage w)) (now w) (timers w)
            (calls w)).
Proof. reflexivity. Qed.

Lemma addNotification_run (snap : AppState) (type : JSValue) (message : string)
    (w : World) :
  addNotification snap type message w
  = (mkWorld
       (setNotifications
          (take 20 (mkNotification (now w) type message "Just now" false
                    :: notifications snap)) (app w))
       (<["pos_notifications" :=
           StoredFeed (take 20 (mkNotification (now w) type message "Just now"
                                  false :: notifications snap))]>
          (localStorage w))
       (now w) (timers w) (calls w ++ [(now w, CAddNotification type message)]),
     Normal tt).
Proof. reflexivity. Qed.

Lemma loadContacts_run (h : Host) (w : World) :
  loadContacts h w
  = (mkWorld
       (match stage_value h (now w) ContactsCell with
        | Some v => setContacts v (app w)
        | None => app w
        end)
       (localStorage w) (now w) (timers w)
       (calls w ++ [(now w, CFetch "GET" (API_URL +:+ "/contacts") JUndefined)]),
     Normal tt).
Proof.
  unfold loadContacts, try_catch, stage_value, stage_response.
  rewrite issue_bind. cbv beta. cbn [cell_path cell_field].
  destruct (fetch h (now w) "GET" (API_URL +:+ "/contacts") JUndefined)
    as [e | e | data]; try reflexivity.
  run_js. destruct (get_prop data "contacts"); reflexivity.
Qed.

Lemma Promise_all_settles (rs : list Response) (w : World) :
  Promise_all rs w
  = (w, if forallb answered rs then Normal tt
        else Thrown (match List.find (fun r => negb (answered r)) rs with
                     | Some (NetworkError e) => e
                     | _ => ""
                     end)).
Proof.
  unfold Promise_all. induction rs as [| r rs IH]; [reflexivity |].
  destruct r as [e | e | v]; cbn [forEach forallb List.find answered negb andb];
    try reflexivity;
    (unfold bind at 1; cbn [settled ret]; cbv beta iota;
     unfold bind at 1; cbn [ret]; cbv beta iota; exact IH).
Qed.

Ltac stage_done Ha :=
  run_js; unfold refreshed; rewrite Ha; unfold stages;
  cbn [run_stages]; unfold stage_value, stage_response;
  cbn [cell_path cell_field];
  repeat match goal with
         | E : fetch _ _ _ _ _ = _ |- _ => rewrite E
         | E : get_prop _ _ = _ |- _ => rewrite E
         end;
  cbn [set_cell run_stages]; reflexivity.

Ltac stage_body Ha path :=
  match goal with
  | |- context [json (fetch ?h ?t ?m (API_URL +:+ path) ?b)] =>
      let E := fresh "E" in
      destruct (fetch h t m (API_URL +:+ path) b) as [? | ? | ?] eqn:E;
      [ exfalso; cbn [map forallb stages] in Ha;
        unfold stage_response in Ha; cbn [cell_path] in Ha;
        rewrite E in Ha; cbn [answered andb] in Ha;
        rewrite ?andb_false_r in Ha; discriminate Ha
      | stage_done Ha | ]
  end.

Ltac stage_field Ha :=
  match goal with
  | |- context [prop ?v ?k] =>
      let F := fresh "F" in
      destruct (get_prop v k) eqn:F; [| unfold prop; rewrite F; stage_done Ha]
  end.

(** A full refresh, for every host: the seven requests, then the state
    [refreshed]. *)
Lemma loadDashboardData_run (h : Host) (w : World) :
  loadDashboardData h w
  = (mkWorld (refreshed h (now w) (app w)) (localStorage w) (now w) (timers w)
       (calls w ++ dashboard_requests (now w)), Normal tt).
Proof.
  unfold loadDashboardData, try_catch.
  repeat (rewrite issue_bind; cbv beta; cbn [now app localStorage timers calls]).
  rewrite <- !app_assoc. cbn [List.app].
  change [(now w, CFetch "GET" (API_URL +:+ "/context") JUndefined);
          (now w, CFetch "GET" (API_URL +:+ "/xp/avatars") JUndefined);
          (now w, CFetch "GET" (API_URL +:+ "/tasks?limit=50") JUndefined);
          (now w, CFetch "GET" (API_URL +:+ "/calendar/today") JUndefined);
          (now w, CFetch "GET" (API_URL +:+ "/weather/current") JUndefined);
          (now w, CFetch "GET" (API_URL +:+ "/email/recent?max_results=50")
                    JUndefined);
          (now w, CFetch "GET" (API_URL +:+ "/contacts") JUndefined)]
    with (dashboard_requests (now w)).
  unfold bind at 1. rewrite Promise_all_settles.
  change (forallb answered _)
    with (forallb answered (map (stage_response h (now w)) stages)).
  destruct (forallb answered (map (stage_response h (now w)) stages)) eqn:Ha.
  2: { unfold refreshed. rewrite Ha. reflexivity. }
  cbv beta iota.
  stage_body Ha "/context". do 2 step_js.
  stage_body Ha "/xp/avatars". step_js. stage_field Ha. do 2 step_js.
  stage_body Ha "/tasks?limit=50". step_js. stage_field Ha. do 2 step_js.
  stage_body Ha "/calendar/today". step_js. stage_field Ha. do 2 step_js.
  stage_body Ha "/weather/current". do 2 step_js.
  stage_body Ha "/email/recent?max_results=50". step_js. stage_field Ha.
  do 2 step_js.
  stage_body Ha "/contacts". step_js. stage_field Ha. step_js.
  stage_done Ha.
Qed.

(** ** Blank input *)

Lemma strip_first_WhiteSpace (w s : string) :
  In w WhiteSpace -> strip_first WhiteSpace (w +:+ s) = Some s.
Proof.
  unfold WhiteSpace. simpl. intros H.
  repeat (destruct H as [<- | H]; [reflexivity |]).
  destruct H.
Qed.

Lemma WhiteSpace_length (w : string) :
  In w WhiteSpace -> (1 <= String.length w)%nat.
Proof.
  unfold WhiteSpace. simpl. intros H.
  repeat (destruct H as [<- | H]; [simpl; lia |]).
  destruct H.
Qed.

Lemma string_length_app (a b : string) :
  String.length (a +:+ b) = (String.length a + String.length b)%nat.
Proof. induction a as [| c a IH]; simpl; [reflexivity | now rewrite IH]. Qed.

Lemma strip_all_Blank (s : string) :
  Blank s -> forall fuel, (String.length s <= fuel)%nat ->
  strip_all WhiteSpace fuel s = "".
Proof.
  induction 1 as [| w s Hw Hs IH]; intros fuel Hfuel.
  - destruct fuel; reflexivity.
  - rewrite string_length_app in Hfuel.
    pose proof (WhiteSpace_length w Hw).
    destruct fuel as [| fuel]; [lia |].
    cbn [strip_all]. rewrite strip_first_WhiteSpace by assumption.
    apply IH. lia.
Qed.

Lemma trim_Blank (s : string) : Blank s -> trim s = "".
Proof.
  intros H. unfold trim, trimStart.
  rewrite (strip_all_Blank s H) by lia. reflexivity.
Qed.

Example trim_example :
  trim (" " +:+ bytes [9; 194; 160]%nat +:+ "add  task"
        +:+ bytes [10; 226; 128; 168; 32]%nat)
  = "add  task".
Proof. vm_compute. reflexivity. Qed.

(** C9: when the input is empty or consists only of white space, submit
    and chat send return at once: the world they are run on, with its
    calls (no request, no notification), its state, its storage and its
    timers, is the world they return. *)
Theorem blank_input_is_no_op
    (h : Host) (text : string) (snap : AppState) (w : World) :
  Blank text ->
  handleSubmit h (setQuery text snap) w = (w, Normal tt) /\
  handleGroqChat h (setGroqInput text snap) w = (w, Normal tt).
Proof.
  intros Hblank. unfold handleSubmit, handleGroqChat.
  cbn [query groqInput setQuery setGroqInput].
  rewrite (trim_Blank text Hblank). split; reflexivity.
Qed.

Lemma blank_input_is_no_op_witness :
  Blank (" " +:+ bytes [9; 10]%nat) /\
  handleSubmit backend (setQuery (" " +:+ bytes [9; 10]%nat) initialState)
    emptyWorld = (emptyWorld, Normal tt) /\
  handleGroqChat backend (setGroqInput (" " +:+ bytes [9; 10]%nat) initialState)
    emptyWorld = (emptyWorld, Normal tt).
Proof.
  assert (Hb : Blank (" " +:+ bytes [9; 10]%nat)).
  { apply (Blank_ws " " (bytes [9; 10]%nat)); [simpl; tauto |].
    apply (Blank_ws (bytes [9]%nat) (bytes [10]%nat)); [simpl; tauto |].
    apply (Blank_ws (bytes [10]%nat) ""); [simpl; tauto |].
    apply Blank_empty. }
  split; [exact Hb |].
  exact (blank_input_is_no_op backend _ initialState emptyWorld Hb).
Defined.

(** ** Notification feed *)

Lemma addNotification_feed (snap : AppState) (type : JSValue) (message : string)
    (w : World) :
  notifications (app (fst (addNotification snap type message w)))
  = take 20 (mkNotification (now w) type message "Just now" false
             :: notifications snap).
Proof. reflexivity. Qed.

Lemma nth_render_In (age : nat) (s : AppState) (renders : list AppState) :
  In (nth age (s :: renders) s) (s :: renders).
Proof.
  destruct (Nat.lt_ge_cases age (length (s :: renders))) as [Hlt | Hge].
  - now apply nth_In.
  - rewrite nth_overflow by exact Hge. now left.
Qed.

Lemma take_app_take {A} (k : nat) (a b : list A) :
  take k (a ++ take k b) = take k (a ++ b).
Proof. rewrite !take_app, take_take. f_equal. f_equal. lia. Qed.

Lemma sublist_map {A B} (f : A -> B) (l k : list A) :
  sublist l k -> sublist (map f l) (map f k).
Proof. induction 1; cbn; constructor; assumption. Qed.

Lemma run_pushes_within (ps : list PushCall) :
  forall (renders : list AppState) (w : World) (base : list Notification),
    Forall (within base) (app w :: renders) ->
    within (rev (map created ps) ++ base) (app (run_pushes renders ps w)).
Proof.
  induction ps as [| p ps IH]; intros renders w base Hall.
  - cbn. now inversion Hall.
  - cbn [run_pushes map rev].
    rewrite <- app_assoc. cbn [List.app].
    apply IH. clear IH.
    pose proof (nth_render_In (p_age p) (app w) renders) as Hin.
    rewrite List.Forall_forall in Hall.
    destruct (Hall _ Hin) as [Hsub _].
    constructor.
    + split.
      * rewrite addNotification_feed. cbn [now at_time].
        etransitivity; [apply sublist_take |].
        apply sublist_skip. exact Hsub.
      * rewrite addNotification_feed, length_take. lia.
    + rewrite List.Forall_forall. intros s Hs.
      destruct (Hall s Hs) as [Hs1 Hs2]. split; [| exact Hs2].
      now apply sublist_cons.
Qed.

Lemma run_pushes_ordered (ps : list PushCall) (w : World) :
  (length (notifications (app w)) <= 20)%nat ->
  sublist (notifications (app (run_pushes [] ps w)))
    (rev (map created ps) ++ notifications (app w)) /\
  (length (notifications (app (run_pushes [] ps w))) <= 20)%nat.
Proof.
  intros Hlen. apply (run_pushes_within ps [] w (notifications (app w))).
  constructor; [| constructor]. split; [reflexivity | exact Hlen].
Qed.

Lemma run_pushes_fresh (ps : list PushCall) :
  forall (renders : list AppState) (w : World),
    Forall (fun p => p_age p = 0%nat) ps ->
    (length (notifications (app w)) <= 20)%nat ->
    notifications (app (run_pushes renders ps w))
    = take 20 (rev (map created ps) ++ notifications (app w)).
Proof.
  induction ps as [| p ps IH]; intros renders w Hfresh Hlen.
  - cbn. now rewrite take_ge.
  - inversion Hfresh as [| ? ? Hp Hps]; subst.
    cbn [run_pushes map rev]. rewrite Hp. cbn [nth].
    rewrite IH; [| exact Hps | rewrite addNotification_feed, length_take; lia].
    rewrite addNotification_feed. cbn [now at_time].
    rewrite take_app_take, <- app_assoc. reflexivity.
Qed.

Lemma run_pushes_head (ps : list PushCall) :
  forall (renders : list AppState) (w : World) (p : PushCall),
    last ps = Some p ->
    head (notifications (app (run_pushes renders ps w))) = Some (created p).
Proof.
  induction ps as [| q ps IH]; intros renders w p Hlast; [discriminate |].
  destruct ps as [| q' ps].
  - injection Hlast as ->. reflexivity.
  - cbn [run_pushes]. apply IH. exact Hlast.
Qed.

(** C1: after any sequence of pushes on a feed of at most 20
    notifications, the feed has at most 20 notifications and is ordered
    newest first by creation: it is a subsequence of the notifications
    created, latest first, followed by the feed it started from; the
    notification pushed last is at its head; and when every push is made
    from the current render, it is exactly the 20 first of that list
    (each notification is prepended, then the feed is truncated). *)
Theorem feed_bounded_newest_first (ps : list PushCall) (w : World) :
  (length (notifications (app w)) <= 20)%nat ->
  let feed := notifications (app (run_pushes [] ps w)) in
  (length feed <= 20)%nat /\
  sublist feed (rev (map created ps) ++ notifications (app w)) /\
  (forall p, last ps = Some p -> head feed = Some (created p)) /\
  (Forall (fun p => p_age p = 0%nat) ps ->
   feed = take 20 (rev (map created ps) ++ notifications (app w))).
Proof.
  intros Hlen feed.
  destruct (run_pushes_ordered ps w Hlen) as [Hsub Hle].
  split; [exact Hle |]. split; [exact Hsub |]. split.
  - intros p Hp. now apply run_pushes_head.
  - intros Hfresh. now apply run_pushes_fresh.
Qed.

Lemma feed_bounded_newest_first_witness :
  let ps := [mkPushCall 0 10 (JStr "task") "one";
             mkPushCall 0 20 (JStr "groq") "two";
             mkPushCall 2 30 (JStr "system") "three"] in
  let feed := notifications (app (run_pushes [] ps emptyWorld)) in
  (length feed <= 20)%nat /\
  sublist feed (rev (map created ps) ++ notifications (app emptyWorld)) /\
  (forall p, last ps = Some p -> head feed = Some (created p)) /\
  (Forall (fun p => p_age p = 0%nat) ps ->
   feed = take 20 (rev (map created ps) ++ notifications (app emptyWorld))).
Proof.
  apply (feed_bounded_newest_first _ emptyWorld). cbn. lia.
Defined.

(** When the clock readings of the pushes differ from one another and
    from the ids already in the feed, the ids of the feed are unique. *)
Lemma unique_ids_when_clock_readings_differ (ps : list PushCall) (w : World) :
  (length (notifications (app w)) <= 20)%nat ->
  NoDup (map n_id (rev (map created ps) ++ notifications (app w))) ->
  NoDup (map n_id (notifications (app (run_pushes [] ps w)))).
Proof.
  intros Hlen Hnd.
  destruct (run_pushes_ordered ps w Hlen) as [Hsub _].
  eapply sublist_NoDup; [exact Hnd | apply sublist_map; exact Hsub].
Qed.

(** C8: the id of a notification is the clock reading of its push; two
    pushes made from consecutive renders at the same reading give a feed
    that holds two notifications with one id. *)
Theorem same_millisecond_pushes_share_id :
  let ps := [mkPushCall 0 1700000000000 (JStr "system") "first";
             mkPushCall 0 1700000000000 (JStr "groq") "second"] in
  let feed := notifications (app (run_pushes [] ps emptyWorld)) in
  map n_message feed = ["second"; "first"] /\
  map n_id feed = [1700000000000; 1700000000000] /\
  ~ NoDup (map n_id feed).
Proof.
  cbn. repeat split. intros H.
  inversion H as [| ? ? Hnotin _]. apply Hnotin. now left.
Qed.

Lemma markNotificationRead_feed (snap : AppState) (id : Z) (w : World) :
  notifications (app (fst (markNotificationRead snap id w)))
  = map (mark id) (notifications snap).
Proof. reflexivity. Qed.

Lemma mark_mark (id : Z) (n : Notification) : mark id (mark id n) = mark id n.
Proof.
  unfold mark. destruct (n_id n =? id) eqn:E; cbn; rewrite E; reflexivity.
Qed.

Lemma mark_absent (id : Z) (l : list Notification) :
  (forall n, In n l -> n_id n <> id) -> map (mark id) l = l.
Proof.
  induction l as [| n l IH]; intros H; [reflexivity |]. cbn.
  rewrite IH by (intros; apply H; now right).
  unfold mark. destruct (Z.eqb_spec (n_id n) id) as [E | E].
  - exfalso. apply (H n); [now left | exact E].
  - reflexivity.
Qed.

(** C7: marking a notification read twice, from the next render or from
    the same one, gives the world that marking it once gives; the feed
    keeps every notification, with [read] set for those whose id is the
    given one and every other field as it was; and the feed is unchanged
    when no notification has the id. *)
Theorem markNotificationRead_idempotent (snap : AppState) (id : Z) (w : World) :
  let once := fst (markNotificationRead snap id w) in
  let twice := fst (markNotificationRead (app once) id once) in
  let again := fst (markNotificationRead snap id once) in
  twice = once /\ again = once /\
  Forall2 (fun n n' =>
             n_id n' = n_id n /\ n_type n' = n_type n /\
             n_message n' = n_message n /\ n_time n' = n_time n /\
             n_read n' = (if n_id n =? id then true else n_read n))
    (notifications snap) (notifications (app once)) /\
  ((forall n, In n (notifications snap) -> n_id n <> id) ->
   notifications (app once) = notifications snap).
Proof.
  cbn zeta.
  assert (Hm : map (mark id) (map (mark id) (notifications snap))
               = map (mark id) (notifications snap)).
  { rewrite map_map. apply map_ext. intros n. apply mark_mark. }
  repeat split.
  - unfold markNotificationRead, bind, modify_app, setItem. cbn.
    rewrite Hm, insert_insert_eq. reflexivity.
  - unfold markNotificationRead, bind, modify_app, setItem. cbn.
    rewrite insert_insert_eq. reflexivity.
  - rewrite markNotificationRead_feed.
    clear Hm. induction (notifications snap) as [| n l IH]; cbn.
    + constructor.
    + constructor; [| exact IH].
      unfold mark. destruct (n_id n =? id); cbn; repeat split; reflexivity.
  - intros H. rewrite markNotificationRead_feed. now apply mark_absent.
Qed.

(** ** Sign-out *)

Example signOut_example :
  let stored : gmap string Stored :=
    <["pos_auth" := StoredAuth "demo@present.os" "Demo" 0]>
      (<["pos_notifications" := StoredFeed []]>
         (<["pos_chat_history" := StoredChat []]> ∅)) in
  let w' := fst (signOut (mkWorld initialState stored 0 [] [])) in
  localStorage w' !! "pos_auth" = None /\
  localStorage w' !! "pos_notifications" = None /\
  localStorage w' !! "pos_chat_history" = Some (StoredChat []).
Proof. vm_compute. repeat split. Qed.

(** C10: sign-out deletes the keys [pos_auth] and [pos_notifications]
    from the storage and nothing else ([pos_chat_history] and every other
    key keep what they hold), clears [isAuthenticated] and leaves the rest
    of the state and of the world as it was. *)
Theorem signOut_removes_auth_and_feed_only (w : World) :
  let w' := fst (signOut w) in
  snd (signOut w) = Normal tt /\
  localStorage w'
  = delete "pos_notifications" (delete "pos_auth" (localStorage w)) /\
  localStorage w' !! "pos_auth" = None /\
  localStorage w' !! "pos_notifications" = None /\
  localStorage w' !! "pos_chat_history" = localStorage w !! "pos_chat_history" /\
  (forall k : string, k <> "pos_auth" -> k <> "pos_notifications" ->
     localStorage w' !! k = localStorage w !! k) /\
  isAuthenticated (app w') = false /\
  app w' = setIsAuthenticated false (app w) /\
  now w' = now w /\ timers w' = timers w /\ calls w' = calls w.
Proof.
  cbn. repeat split.
  - rewrite lookup_delete_ne by discriminate. apply lookup_delete_eq.
  - apply lookup_delete_eq.
  - rewrite !lookup_delete_ne by discriminate. reflexivity.
  - intros k H1 H2. rewrite !lookup_delete_ne by congruence. reflexivity.
Qed.

(** ** Command dispatcher *)

(** C3: when the request of a submit fails in transport or its answer
    does not parse, the call completes normally; the result shown is the
    error-shaped one carrying the message of the error, and exactly one
    notification is pushed, of kind [system], whose text carries that
    message; nothing else is called and no timer is set. *)
Theorem handleSubmit_failure_is_reported
    (h : Host) (snap : AppState) (w : World) (message : string) :
  truthy (JStr (trim (query snap))) = true ->
  (fetch h (now w) "POST" (API_URL +:+ "/process")
     (JObj [("query", JStr (query snap))]) = NetworkError message \/
   fetch h (now w) "POST" (API_URL +:+ "/process")
     (JObj [("query", JStr (query snap))]) = Malformed message) ->
  let text := "❌ Error: " +:+ message in
  let feed :=
    take 20 (mkNotification (now w) (JStr "system") text "Just now" false
             :: notifications snap) in
  let result :=
    JObj [("response", JStr "Error processing request");
          ("error", JStr message)] in
  handleSubmit h snap w
  = (mkWorld
       (setLoading false
          (setNotifications feed (setResponse result (setLoading true (app w)))))
       (<["pos_notifications" := StoredFeed feed]> (localStorage w))
       (now w) (timers w)
       (calls w ++
          [(now w, CFetch "POST" (API_URL +:+ "/process")
                     (JObj [("query", JStr (query snap))]));
           (now w, CAddNotification (JStr "system") text)]),
     Normal tt).
Proof.
  intros Hquery Hfail. cbv zeta.
  unfold handleSubmit. rewrite Hquery. cbn [negb]. run_js.
  destruct Hfail as [-> | ->]; run_js; rewrite <- app_assoc; reflexivity.
Qed.

Lemma handleSubmit_failure_is_reported_witness :
  let w' := fst (handleSubmit offline (typing "add a task") emptyWorld) in
  snd (handleSubmit offline (typing "add a task") emptyWorld) = Normal tt /\
  response (app w')
  = JObj [("response", JStr "Error processing request");
          ("error", JStr "Failed to fetch")] /\
  pushes_of (calls w') = [(JStr "system", "❌ Error: Failed to fetch")].
Proof.
  cbv zeta.
  rewrite (handleSubmit_failure_is_reported offline (typing "add a task")
             emptyWorld "Failed to fetch");
    [| vm_compute; reflexivity | left; reflexivity].
  repeat split.
Defined.

Lemma loadDashboardData_calls (h : Host) (w : World) :
  now (fst (loadDashboardData h w)) = now w /\
  timers (fst (loadDashboardData h w)) = timers w /\
  calls (fst (loadDashboardData h w)) = calls w ++ dashboard_requests (now w).
Proof.
  unfold loadDashboardData. rewrite try_catch_swallow.
  repeat (rewrite issue_bind; cbv beta; cbn [now app localStorage timers calls]).
  match goal with
  | |- context [fst (?m ?w7)] =>
      assert (Hq : keeps surroundings m) by keeps_tac;
      destruct (surroundings_eq _ _ (Hq w7)) as (H1 & H2 & H3)
  end.
  rewrite H1, H2, H3. cbn [now timers calls].
  repeat split. rewrite <- !app_assoc. reflexivity.
Qed.

Section Timers.
Variable h : Host.













End Timers.








(** ** Chat session *)

Ltac failed_chat Hlen :=
  repeat split;
  [ apply Hlen
  | now rewrite lookup_insert_ne, lookup_insert_eq
  | eexists; split; [| split; [pushes; reflexivity | reflexivity]];
    reflexivity ].

(** C2: when the chat request fails in transport, its answer does not
    parse, or the answer does not carry a true [success], the call
    completes normally and the transcript, in the state and in the
    storage, is the transcript of the render followed by the user turn
    alone, one turn longer; exactly one notification is pushed, of kind
    [groq], and it is an error notification. *)
Theorem handleGroqChat_failure_keeps_user_turn
    (h : Host) (snap : AppState) (w : World) :
  truthy (JStr (trim (groqInput snap))) = true ->
  (forall body,
     match fetch h (now w) "POST" (API_URL +:+ "/groq/chat") body with
     | Json data => truthy (get_prop_opt data "success") = false
     | NetworkError _ | Malformed _ => True
     end) ->
  let userMessage :=
    mkChatMessage "user" (JStr (groqInput snap)) (now w) JUndefined JUndefined in
  let w' := fst (handleGroqChat h snap w) in
  snd (handleGroqChat h snap w) = Normal tt /\
  chatHistory (app w') = chatHistory snap ++ [userMessage] /\
  length (chatHistory (app w')) = S (length (chatHistory snap)) /\
  localStorage w' !! "pos_chat_history"
  = Some (StoredChat (chatHistory snap ++ [userMessage])) /\
  exists text : string,
    String.prefix "❌" text = true /\
    pushes_of (calls w') = pushes_of (calls w) ++ [(JStr "groq", text)] /\
    notifications (app w')
    = take 20 (mkNotification (now w) (JStr "groq") text "Just now" false
               :: notifications snap).
Proof.
  intros Hinput Hfail. cbv zeta.
  assert (Hlen : forall l (m : ChatMessage), length (l ++ [m]) = S (length l)).
  { intros l m. rewrite length_app. cbn. lia. }
  unfold handleGroqChat. rewrite Hinput. cbn [negb]. run_js.
  destruct (get_prop (tasks snap) "length") as [backlog |]; run_js;
    [| failed_chat Hlen].
  destruct (get_prop (events snap) "length") as [upcoming |]; run_js;
    [| failed_chat Hlen].
  match goal with
  | |- context [fetch h ?t ?m ?u ?b] =>
      specialize (Hfail b); destruct (fetch h t m u b) as [e | e | data]
  end; run_js; [failed_chat Hlen | failed_chat Hlen |].
  unfold get_prop_opt in Hfail.
  destruct (get_prop data "success") as [success |] eqn:Hsuccess; run_js;
    [| failed_chat Hlen].
  change (truthy success = false) in Hfail. rewrite Hfail.
  assert (exists v, get_prop data "error" = Some v) as [v ->].
  { destruct data; try discriminate; cbn; eauto. }
  run_js. unfold template.
  destruct (ToString (number_text h) v); run_js; failed_chat Hlen.
Qed.

Lemma handleGroqChat_failure_keeps_user_turn_witness :
  let w' := fst (handleGroqChat backend (typing "hello") emptyWorld) in
  snd (handleGroqChat backend (typing "hello") emptyWorld) = Normal tt /\
  chatHistory (app w')
  = [mkChatMessage "user" (JStr "hello") 0 JUndefined JUndefined] /\
  length (chatHistory (app w')) = 1%nat.
Proof.
  cbv zeta.
  destruct (handleGroqChat_failure_keeps_user_turn backend (typing "hello")
              emptyWorld)
    as (Hnormal & Hhistory & Hlength & _);
    [vm_compute; reflexivity | intros body; vm_compute; reflexivity |].
  split; [exact Hnormal |]. split; [exact Hhistory | exact Hlength].
Defined.

(** For comparison: an answered chat appends the assistant turn after
    the user turn. *)
Example handleGroqChat_answered :
  let w' := fst (handleGroqChat assistant (typing "hello") emptyWorld) in
  chatHistory (app w')
  = [mkChatMessage "user" (JStr "hello") 0 JUndefined JUndefined;
     mkChatMessage "assistant" (JStr "Hi") 0 (JStr "llama") (JNum 12)] /\
  pushes_of (calls w') = [(JStr "groq", "🤖 Martin responded")].
Proof. vm_compute. split; reflexivity. Qed.

(** ** Resource aggregator *)

Lemma get_prop_of_body (v : JSValue) (k : string) :
  v <> JNull -> v <> JUndefined -> get_prop v k = Some (get_prop_opt v k).
Proof. destruct v; try reflexivity; contradiction. Qed.

(** A stage that cannot unwrap its body is not run, nor is any stage
    after it. *)
Lemma run_stages_blocked (h : Host) (t : Z) (c0 c : Cell) (s : AppState) :
  stage_value h t c0 = None -> (stage_index c0 <= stage_index c)%nat ->
  cell c (run_stages h t stages s) = cell c s.
Proof.
  intros Hnone Hle. unfold stages. cbn [run_stages].
  repeat match goal with
         | |- context [match stage_value h t ?x with _ => _ end] =>
             let E := fresh "E" in destruct (stage_value h t x) eqn:E
         end;
    destruct c0; try congruence; destruct c; cbn [stage_index] in Hle;
    try lia; reflexivity.
Qed.

(** C6 (amended): in a full refresh whose seven answers parse, when none
    of the five collection answers is [null], every collection is set
    from the field of its own answer: to the field when it is truthy, to
    the empty sequence when it is missing or falsy ([null], [false], [0],
    the empty string); the context and the weather are set to their
    answers.  When a collection answer is [null], reading its field
    raises an error, which is swallowed: that collection and every cell
    set after it keep the values they had. *)
Theorem loadDashboardData_unwraps_each_collection
    (h : Host) (w : World) (contextData weatherData : JSValue)
    (body : Collection -> JSValue) :
  fetch h (now w) "GET" (API_URL +:+ "/context") JUndefined = Json contextData ->
  fetch h (now w) "GET" (API_URL +:+ "/weather/current") JUndefined
  = Json weatherData ->
  (forall c, sub_response h (now w) c = Json (body c)) ->
  let s := app (fst (loadDashboardData h w)) in
  let field c := get_prop_opt (body c) (field_name c) in
  ((forall c, body c <> JNull /\ body c <> JUndefined) ->
   context s = contextData /\ weather s = weatherData /\
   forall c,
     collection c s = js_or (field c) (JArr []) /\
     (truthy (field c) = false -> collection c s = JArr []) /\
     (truthy (field c) = true -> collection c s = field c)) /\
  (forall c, body c = JNull ->
   collection c s = collection c (app w) /\
   forall c' : Cell,
     (stage_index (cell_of c) <= stage_index c')%nat ->
     cell c' s = cell c' (app w)).
Proof.
  intros Hcontext Hweather Hsub. cbv zeta. split.
  - intros Hbody.
    pose proof (Hsub Avatars) as Ha. pose proof (Hsub Tasks) as Ht.
    pose proof (Hsub Events) as He. pose proof (Hsub Emails) as Hm.
    pose proof (Hsub Contacts) as Hc.
    pose proof (fun c => get_prop_of_body (body c) (field_name c)
                           (proj1 (Hbody c)) (proj2 (Hbody c))) as Hfield.
    pose proof (Hfield Avatars) as Haf. pose proof (Hfield Tasks) as Htf.
    pose proof (Hfield Events) as Hef. pose proof (Hfield Emails) as Hmf.
    pose proof (Hfield Contacts) as Hcf.
    unfold sub_response in *. cbn [endpoint field_name] in *.
    assert (Hs : app (fst (loadDashboardData h w))
      = setContacts (js_or (get_prop_opt (body Contacts) "contacts") (JArr []))
          (setEmails (js_or (get_prop_opt (body Emails) "emails") (JArr []))
             (setWeather weatherData
                (setEvents (js_or (get_prop_opt (body Events) "events") (JArr []))
                   (setTasks (js_or (get_prop_opt (body Tasks) "tasks") (JArr []))
                      (setAvatars
                         (js_or (get_prop_opt (body Avatars) "avatars") (JArr []))
                         (setContext contextData (app w)))))))).
    { unfold loadDashboardData. rewrite try_catch_swallow.
      repeat (rewrite issue_bind; cbv beta;
              cbn [now app localStorage timers calls]).
      rewrite Hcontext, Ha, Ht, He, Hweather, Hm, Hc.
      repeat step_js. reflexivity. }
    rewrite Hs. split; [reflexivity |]. split; [reflexivity |].
    intros c. split; [destruct c; reflexivity |].
    split; intros Hc'; destruct c; cbn [collection field_name] in *;
      unfold js_or; now rewrite Hc'.
  - intros c Hnull.
    assert (Hnone : stage_value h (now w) (cell_of c) = None).
    { specialize (Hsub c). unfold sub_response in Hsub.
      unfold stage_value, stage_response.
      destruct c; cbn [cell_of cell_path cell_field endpoint] in *;
        rewrite Hsub, Hnull; reflexivity. }
    assert (Hkept : forall c' : Cell,
               (stage_index (cell_of c) <= stage_index c')%nat ->
               cell c' (app (fst (loadDashboardData h w))) = cell c' (app w)).
    { intros c' Hle. rewrite loadDashboardData_run. cbn [fst app].
      unfold refreshed. destruct (forallb _ _); [| reflexivity].
      now apply (run_stages_blocked h (now w) (cell_of c)). }
    revert Hkept. generalize (app (fst (loadDashboardData h w))).
    intros s Hkept. split; [| exact Hkept].
    destruct c; exact (Hkept _ (le_n _)).
Qed.

Lemma loadDashboardData_unwraps_each_collection_witness :
  let s := app (fst (loadDashboardData backend emptyWorld)) in
  events s = JArr [] /\
  contacts s = JArr [JStr "Ann"; JStr "Bob"; JStr "Cy"; JStr "Di"].
Proof.
  cbv zeta.
  destruct (loadDashboardData_unwraps_each_collection backend emptyWorld
              (JObj []) (JObj [])
              (fun c => match c with
                        | Tasks => JObj [("tasks", JStr "oops")]
                        | Contacts =>
                            JObj [("contacts",
                                   JArr [JStr "Ann"; JStr "Bob"; JStr "Cy";
                                         JStr "Di"])]
                        | _ => JObj []
                        end))
    as ((_ & _ & Hall) & _);
    [reflexivity | reflexivity | intros c; destruct c; reflexivity
    | intros c; destruct c; split; discriminate |].
  split.
  - apply (Hall Events). reflexivity.
  - apply (Hall Contacts). reflexivity.
Defined.

(** C6, as stated, fails: a field that is malformed but truthy (here the
    string [oops] where the list of tasks belongs) is stored as it is;
    the other collections are updated all the same. *)
Lemma truthy_malformed_field_is_kept :
  let s := app (fst (loadDashboardData backend emptyWorld)) in
  sub_response backend 0 Tasks = Json (JObj [("tasks", JStr "oops")]) /\
  tasks s = JStr "oops" /\ tasks s <> JArr [] /\
  contacts s = JArr [JStr "Ann"; JStr "Bob"; JStr "Cy"; JStr "Di"].
Proof. vm_compute. repeat split. discriminate. Qed.

(** ** Pagination *)

Lemma totalPages_bounds (n : Z) :
  5 * (totalPages n 5 - 1) < n <= 5 * totalPages n 5.
Proof.
  unfold totalPages.
  pose proof (Z.div_mod (- n) 5 ltac:(lia)).
  pose proof (Z.mod_pos_bound (- n) 5 ltac:(lia)). lia.
Qed.

Lemma paginate_shape {A} (items : list A) (page : Z) :
  exists i k : nat, (k <= 5)%nat /\ paginate items page = take k (drop i items).
Proof.
  unfold paginate, js_slice, itemsPerPage.
  eexists _, _. split; [| reflexivity].
  destruct (Z.ltb_spec ((page - 1) * 5) 0),
    (Z.ltb_spec ((page - 1) * 5 + 5) 0); cbv iota; lia.
Qed.

Lemma paginate_valid {A} (items : list A) (page : Z) :
  1 <= page <= totalPages (Z.of_nat (length items)) 5 ->
  paginate items page = take 5 (drop (Z.to_nat (5 * (page - 1))) items) /\
  paginate items page <> [].
Proof.
  intros Hpage.
  pose proof (totalPages_bounds (Z.of_nat (length items))) as Hb.
  assert (Hp : paginate items page
               = take 5 (drop (Z.to_nat (5 * (page - 1))) items)).
  { unfold paginate, js_slice, itemsPerPage.
    destruct (Z.ltb_spec ((page - 1) * 5) 0); [lia |].
    destruct (Z.ltb_spec ((page - 1) * 5 + 5) 0); [lia |].
    replace (Z.to_nat (Z.min ((page - 1) * 5) (Z.of_nat (length items))))
      with (Z.to_nat (5 * (page - 1))) by lia.
    set (rest := drop (Z.to_nat (5 * (page - 1))) items).
    assert (Hrest : length rest
                    = (length items - Z.to_nat (5 * (page - 1)))%nat)
      by apply length_drop.
    destruct (Z.le_gt_cases ((page - 1) * 5 + 5) (Z.of_nat (length items))).
    - f_equal. lia.
    - rewrite !take_ge by lia. reflexivity. }
  split; [exact Hp |]. rewrite Hp. intros Hnil.
  apply (f_equal length) in Hnil. rewrite length_take, length_drop in Hnil.
  cbn [length] in Hnil. lia.
Qed.

Lemma paginate_outside {A} (items : list A) (page : Z) :
  page = 0 \/ totalPages (Z.of_nat (length items)) 5 < page ->
  paginate items page = [].
Proof.
  intros Hpage.
  pose proof (totalPages_bounds (Z.of_nat (length items))) as Hb.
  unfold paginate, js_slice, itemsPerPage.
  match goal with |- take ?k _ = _ => replace k with 0%nat; [reflexivity |] end.
  destruct (Z.ltb_spec ((page - 1) * 5) 0),
    (Z.ltb_spec ((page - 1) * 5 + 5) 0); cbv iota; lia.
Qed.

Lemma Pagination_targets (page n : Z) (view : PaginationView) (p : Z) :
  1 <= page <= totalPages n 5 ->
  Pagination page n 5 = Some view ->
  previous view = Some p \/ next view = Some p ->
  1 <= p <= totalPages n 5.
Proof.
  intros Hpage Hview Hp. unfold Pagination in Hview.
  destruct (totalPages n 5 <=? 1); [discriminate |].
  injection Hview as <-. cbn in Hp.
  destruct (Z.eqb_spec page 1), (Z.eqb_spec page (totalPages n 5));
    destruct Hp as [Hp | Hp]; try discriminate; injection Hp as <-; lia.
Qed.

Lemma loadContacts_keeps_page (h : Host) : keeps page_of (loadContacts h).
Proof. unfold loadContacts. keeps_tac. Qed.

Lemma loadDashboardData_keeps_page (h : Host) :
  keeps page_of (loadDashboardData h).
Proof. unfold loadDashboardData. keeps_tac. Qed.

(** C5 (amended): the slice a paginated view shows never reads outside
    the collection: it is a run of at most 5 consecutive items of it.
    With 12 items, page 3 shows exactly the 2 last ones.  A page between 1
    and the last one shows its 5 items (fewer on the last page), is not
    empty, and the buttons of [Pagination] lead from it to such a page
    only.  The page number is not clamped and a refresh leaves it as it
    is: page 0 and every page beyond the last one show the empty slice. *)
Theorem pagination_never_reads_out_of_range {A} (items : list A) (page : Z)
    (h : Host) (w : World) :
  let last := totalPages (Z.of_nat (length items)) itemsPerPage in
  (length items = 12%nat ->
   paginate items 3 = drop 10 items /\ length (paginate items 3) = 2%nat) /\
  (exists i k : nat,
      (k <= 5)%nat /\ paginate items page = take k (drop i items)) /\
  (1 <= page <= last ->
   paginate items page = take 5 (drop (Z.to_nat (5 * (page - 1))) items) /\
   paginate items page <> [] /\
   forall view p,
     Pagination page (Z.of_nat (length items)) itemsPerPage = Some view ->
     previous view = Some p \/ next view = Some p -> 1 <= p <= last) /\
  (page = 0 \/ last < page -> paginate items page = []) /\
  contactPage (app (fst (loadContacts h w))) = contactPage (app w) /\
  contactPage (app (fst (loadDashboardData h w))) = contactPage (app w).
Proof.
  cbv zeta. change itemsPerPage with 5.
  split; [| split; [| split; [| split; [| split]]]].
  - intros H12.
    destruct (paginate_valid items 3) as [Hp _].
    { rewrite H12. vm_compute. split; discriminate. }
    rewrite Hp. change (Z.to_nat (5 * (3 - 1))) with 10%nat.
    rewrite take_ge by (rewrite length_drop; lia).
    split; [reflexivity | rewrite length_drop; lia].
  - apply paginate_shape.
  - intros Hpage. destruct (paginate_valid items page Hpage) as [H1 H2].
    split; [exact H1 |]. split; [exact H2 |].
    intros view p. now apply Pagination_targets.
  - apply paginate_outside.
  - apply (loadContacts_keeps_page h w).
  - apply (loadDashboardData_keeps_page h w).
Qed.

(** C5, as stated, fails: on page 3 of twelve contacts, a refresh that
    returns four contacts leaves the page at 3; the four contacts are
    there, the slice shown is empty and [Pagination] renders no button to
    leave the page.  Page 0 shows an empty slice too. *)
Lemma shrunk_collection_leaves_an_empty_page :
  contacts (app afterShrink)
  = JArr [JStr "Ann"; JStr "Bob"; JStr "Cy"; JStr "Di"] /\
  contactPage (app afterShrink) = 3 /\
  paginatedContacts (app afterShrink) = Some [] /\
  Pagination 3 4 itemsPerPage = None /\
  paginate twelve 0 = [].
Proof. vm_compute. repeat split. Qed.

(** * The rest of the orchestration layer: proofs *)


(** ** Feed: persistence and the unread count *)

Lemma loadNotifications_synced (w : World) (feed : list Notification) :
  localStorage w !! "pos_notifications" = Some (StoredFeed feed) ->
  loadNotifications w
  = (mkWorld (setNotifications feed (app w)) (localStorage w) (now w)
       (timers w) (calls w), Normal tt).
Proof. intros H. unfold loadNotifications. rewrite H. reflexivity. Qed.

(** X1: after a push, after marking one notification read and after
    marking all read, the feed kept under [pos_notifications] is the feed
    on screen, so that [loadNotifications] (run every 30 seconds) finds
    nothing to change.  The stored text is read back as the value that
    was written. *)
Theorem feed_mutations_are_persisted
    (snap : AppState) (type : JSValue) (message : string) (id : Z) (w : World) :
  let pushed := fst (addNotification snap type message w) in
  let marked := fst (markNotificationRead snap id w) in
  let all := fst (markAllRead snap w) in
  (localStorage pushed !! "pos_notifications"
   = Some (StoredFeed (notifications (app pushed))) /\
   loadNotifications pushed = (pushed, Normal tt)) /\
  (localStorage marked !! "pos_notifications"
   = Some (StoredFeed (notifications (app marked))) /\
   loadNotifications marked = (marked, Normal tt)) /\
  (localStorage all !! "pos_notifications"
   = Some (StoredFeed (notifications (app all))) /\
   loadNotifications all = (all, Normal tt)).
Proof.
  cbv zeta.
  split; [| split];
    (split;
     [ cbn; apply lookup_insert_eq
     | erewrite loadNotifications_synced by (cbn; apply lookup_insert_eq);
       reflexivity ]).
Qed.

Lemma unreadCount_map_read (l : list Notification) (f : Notification -> Notification) :
  (forall n, n_read (f n) = true) -> unreadCount (map f l) = 0%nat.
Proof.
  intros Hf. unfold unreadCount.
  induction l as [| n l IH]; [reflexivity |].
  cbn [map List.filter]. rewrite Hf. exact IH.
Qed.

(** X2: "Mark all as read" brings the number on the bell to 0 and changes
    nothing else of a notification (same ids, kinds, messages and times,
    in the same order); doing it again, or marking one notification read
    afterwards, changes nothing. *)
Theorem markAllRead_clears_the_badge (snap : AppState) (id : Z) (w : World) :
  let all := fst (markAllRead snap w) in
  unreadCount (notifications (app all)) = 0%nat /\
  Forall2 (fun n n' =>
             n_id n' = n_id n /\ n_type n' = n_type n /\
             n_message n' = n_message n /\ n_time n' = n_time n /\
             n_read n' = true)
    (notifications snap) (notifications (app all)) /\
  fst (markAllRead (app all) all) = all /\
  fst (markNotificationRead (app all) id all) = all.
Proof.
  cbv zeta. split; [| split; [| split]].
  - cbn. now apply unreadCount_map_read.
  - cbn. induction (notifications snap) as [| n l IH]; cbn; constructor; auto.
  - unfold markAllRead, bind, modify_app, setItem. cbn.
    rewrite insert_insert_eq, map_map. reflexivity.
  - unfold markAllRead, markNotificationRead, bind, modify_app, setItem. cbn.
    rewrite insert_insert_eq, map_map. cbn.
    assert (E : map (fun n => mark id (mkNotification (n_id n) (n_type n)
                                          (n_message n) (n_time n) true))
                  (notifications snap)
                = map (fun n => mkNotification (n_id n) (n_type n)
                                  (n_message n) (n_time n) true)
                    (notifications snap)).
    { apply map_ext. intros n. unfold mark. cbn. now destruct (n_id n =? id). }
    unfold mark in *. cbn in *. rewrite E. reflexivity.
Qed.

Lemma unreadCount_mark (id : Z) (l : list Notification) :
  (unreadCount (map (mark id) l)
   + length (List.filter (fun n => negb (n_read n) && Z.eqb (n_id n) id) l)
   = unreadCount l)%nat.
Proof.
  unfold unreadCount. induction l as [| n l IH]; [reflexivity |].
  cbn [map List.filter]. unfold mark at 1.
  destruct (n_id n =? id) eqn:E, (n_read n) eqn:R; cbn [n_read negb andb length];
    rewrite ?R; cbn [negb length]; lia.
Qed.

(** X3: marking the notifications with a given id read lowers the number
    on the bell by exactly the number of unread notifications with that
    id; the number never grows and the feed keeps its length. *)
Theorem markNotificationRead_lowers_the_badge (snap : AppState) (id : Z) (w : World) :
  let feed := notifications (app (fst (markNotificationRead snap id w))) in
  (unreadCount feed
   + length (List.filter (fun n => negb (n_read n) && Z.eqb (n_id n) id)
               (notifications snap))
   = unreadCount (notifications snap))%nat /\
  (unreadCount feed <= unreadCount (notifications snap))%nat /\
  length feed = length (notifications snap).
Proof.
  cbv zeta. cbn [markNotificationRead].
  change (notifications (app (fst (markNotificationRead snap id w))))
    with (map (mark id) (notifications snap)).
  pose proof (unreadCount_mark id (notifications snap)).
  split; [assumption |]. split; [lia |]. apply length_map.
Qed.


(** ** Completion *)

Lemma safe_bind {A} (m : Js A) (k : A -> Js unit) :
  (forall w, exists a, snd (m w) = Normal a) -> (forall a, safe (k a)) ->
  safe (bind m k).
Proof.
  intros Hm Hk w. unfold bind. destruct (Hm w) as [a Ha].
  destruct (m w) as [w' c]. cbn in Ha. subst c. apply Hk.
Qed.

Lemma safe_seq (m k : Js unit) : safe m -> safe k -> safe (m ;; k).
Proof.
  intros Hm Hk. apply safe_bind; [| intros _; exact Hk].
  intros w. exists tt. apply Hm.
Qed.

Lemma safe_try_catch (m : Js unit) (k : string -> Js unit) :
  (forall e, safe (k e)) -> safe (try_catch m k).
Proof.
  intros Hk w. unfold try_catch. destruct (m w) as [w' [[] | e]]; [reflexivity |].
  apply Hk.
Qed.

Lemma safe_try_finally (m final : Js unit) :
  safe m -> safe final -> safe (try_finally m final).
Proof.
  intros Hm Hf w. unfold try_finally. specialize (Hm w).
  destruct (m w) as [w' c]. cbn in Hm. subst c.
  specialize (Hf w'). destruct (final w') as [w'' c]. cbn in Hf. now subst c.
Qed.

Lemma safe_modify_app (f : AppState -> AppState) : safe (modify_app f).
Proof. intros w. reflexivity. Qed.

Lemma safe_addNotification (snap : AppState) (type : JSValue) (message : string) :
  safe (addNotification snap type message).
Proof. intros w. reflexivity. Qed.

Lemma handleSubmit_safe (h : Host) (snap : AppState) : safe (handleSubmit h snap).
Proof.
  unfold handleSubmit. destruct (negb _); [intros w; reflexivity |].
  apply safe_seq; [apply safe_modify_app |].
  apply safe_try_finally; [| apply safe_modify_app].
  apply safe_try_catch. intros e.
  apply safe_seq; [apply safe_modify_app | apply safe_addNotification].
Qed.

Lemma try_finally_modify_app {A} (m : Js A) (f : AppState -> AppState) (w : World) :
  app (fst (try_finally m (modify_app f) w)) = f (app (fst (m w))).
Proof. unfold try_finally. destruct (m w) as [w' c]. reflexivity. Qed.

(** X4: for every host and every state, [handleSubmit] completes without
    an exception reaching its caller, and when the query is not blank the
    [finally] block has reset [loading] to [false]. *)
Theorem handleSubmit_always_completes (h : Host) (snap : AppState) (w : World) :
  snd (handleSubmit h snap w) = Normal tt /\
  (truthy (JStr (trim (query snap))) = true ->
   loading (app (fst (handleSubmit h snap w))) = false).
Proof.
  split; [apply handleSubmit_safe |].
  intros Hq. unfold handleSubmit. rewrite Hq. cbn [negb].
  rewrite bind_modify_app, try_finally_modify_app. reflexivity.
Qed.

(** ** One push per agent *)

Lemma last_cons_cons {A} (a b : A) (l : list A) : last (a :: b :: l) = last (b :: l).
Proof. reflexivity. Qed.

Lemma last_cons_is_Some {A} (b : A) (l : list A) : exists c, last (b :: l) = Some c.
Proof.
  revert b. induction l as [| x l IH]; intros b; [now exists b |].
  rewrite last_cons_cons. apply IH.
Qed.

Lemma forEach_activation (h : Host) (snap : AppState) (agents : list JSValue) :
  Forall (fun agent => is_Some (ToString (number_text h) agent)) agents ->
  forall w,
    forEach agents (fun agent =>
      let! name := template h agent in
      addNotification snap agent ("✓ " +:+ name +:+ " Agent activated")) w
    = (mkWorld
         (match last agents with
          | Some agent =>
              setNotifications
                (take 20 (activation (now w) agent (agent_name h agent)
                          :: notifications snap))
                (app w)
          | None => app w
          end)
         (match last agents with
          | Some agent =>
              <["pos_notifications" :=
                  StoredFeed (take 20 (activation (now w) agent
                                         (agent_name h agent)
                                       :: notifications snap))]>
                (localStorage w)
          | None => localStorage w
          end)
         (now w) (timers w)
         (calls w ++
            map (fun agent =>
                   (now w, CAddNotification agent
                             ("✓ " +:+ agent_name h agent
                              +:+ " Agent activated")))
              agents),
       Normal tt).
Proof.
  induction 1 as [| a agents [name Hname] _ IH]; intros w.
  - cbn. rewrite app_nil_r. now destruct w.
  - cbn [forEach].
    assert (Ha : agent_name h a = name) by (unfold agent_name; now rewrite Hname).
    rewrite (bind_normal _ _ w
               (fst (addNotification snap a
                       ("✓ " +:+ name +:+ " Agent activated") w)) tt).
    2: { unfold template. rewrite Hname. reflexivity. }
    rewrite IH.
    unfold addNotification, bind, record_call, Date_now, modify_app, setItem.
    cbn [now timers calls app localStorage map fst]. rewrite Ha.
    rewrite <- app_assoc. cbn [List.app].
    destruct agents as [| b agents]; [cbn [last]; rewrite Ha; reflexivity |].
    rewrite last_cons_cons.
    destruct (last_cons_is_Some b agents) as [c ->].
    rewrite insert_insert_eq. reflexivity.
Qed.

Lemma activation_block (h : Host) (agents : list JSValue) (push : JSValue -> Js unit)
    (w : World) :
  (let! len := prop (JArr agents) "length" in
   let! positive := js_gt_zero h len in
   when positive (call_forEach "data.agents" (JArr agents) push)) w
  = forEach agents push w.
Proof.
  erewrite bind_normal by (apply prop_normal; reflexivity).
  unfold js_gt_zero. erewrite bind_normal by reflexivity.
  destruct agents as [| a agents]; [reflexivity |].
  replace (0 <? Z.of_nat (length (a :: agents))) with true
    by (symmetry; apply Z.ltb_lt; cbn [length]; lia).
  reflexivity.
Qed.

Lemma try_catch_normal {A} (m : Js A) (k : string -> Js A) (w w' : World) (a : A) :
  m w = (w', Normal a) -> try_catch m k w = (w', Normal a).
Proof. intros H. unfold try_catch. now rewrite H. Qed.

Lemma try_finally_normal {A} (m : Js A) (f : AppState -> AppState)
    (w w' : World) (c : Completion A) :
  m w = (w', c) ->
  try_finally m (modify_app f) w
  = (mkWorld (f (app w')) (localStorage w') (now w') (timers w') (calls w'), c).
Proof. intros H. unfold try_finally. now rewrite H. Qed.

(** X5: when the dispatcher answers a non-blank query with an array of
    agents, each of which has a text (none is an object with a property
    [toString] of its own, nor an array that holds one), [handleSubmit]
    makes, after the request, one [addNotification] call per agent, in
    the order of the array; it adds the contact reload to the timer
    queue exactly when one of the agents is the string [contact], and
    the refresh always; it clears the query, stores the answer and
    resets [loading].  All the pushes prepend to the feed of the same
    render, so the feed afterwards holds the activation of the last
    agent only, on top of that render's feed. *)
Theorem handleSubmit_pushes_one_activation_per_agent
    (h : Host) (snap : AppState) (w : World) (data : JSValue)
    (agents : list JSValue) :
  truthy (JStr (trim (query snap))) = true ->
  fetch h (now w) "POST" (API_URL +:+ "/process")
    (JObj [("query", JStr (query snap))]) = Json data ->
  get_prop data "agents" = Some (JArr agents) ->
  Forall (fun agent => is_Some (ToString (number_text h) agent)) agents ->
  let w' := fst (handleSubmit h snap w) in
  calls w'
  = calls w ++
    (now w, CFetch "POST" (API_URL +:+ "/process")
              (JObj [("query", JStr (query snap))]))
    :: map (fun agent =>
              (now w, CAddNotification agent
                        ("✓ " +:+ agent_name h agent +:+ " Agent activated")))
         agents /\
  timers w'
  = enqueue (now w + 1500, CbLoadDashboardData)
      (if existsb is_contact agents
       then enqueue (now w + 500, CbReloadContacts snap) (timers w)
       else timers w) /\
  query (app w') = "" /\ response (app w') = data /\
  loading (app w') = false /\
  notifications (app w')
  = match last agents with
    | Some agent =>
        take 20 (activation (now w) agent (agent_name h agent)
                 :: notifications snap)
    | None => notifications (app w)
    end.
Proof.
  intros Hquery Hfetch Hagents Htexts. cbv zeta.
  unfold handleSubmit. rewrite Hquery. cbn [negb].
  rewrite bind_modify_app.
  destruct (existsb is_contact agents) eqn:Econtact;
    (erewrite try_finally_normal;
     [| apply try_catch_normal;
        rewrite issue_bind; cbv beta; cbn [now app localStorage timers calls];
        rewrite Hfetch; do 4 step_js;
        cbn [truthy];
        erewrite bind_normal
          by (rewrite activation_block; now apply forEach_activation);
        cbn [now app localStorage timers calls];
        step_js; unfold call_includes; step_js;
        cbn [truthy];
        change (existsb _ agents) with (existsb is_contact agents);
        rewrite Econtact; cbn [when];
        try step_js; unfold setTimeout;
        cbn [now app localStorage timers calls fst];
        reflexivity ]);
    cbn [fst calls timers app];
    (split; [rewrite <- app_assoc; reflexivity |]);
    (split; [destruct (last agents); reflexivity |]);
    (split; [destruct (last agents); reflexivity |]);
    (split; [destruct (last agents); reflexivity |]);
    (split; [reflexivity |]); destruct (last agents); reflexivity.
Qed.

Lemma handleSubmit_pushes_one_activation_per_agent_witness :
  let w' := fst (handleSubmit backend (typing "Add contact John") emptyWorld) in
  pushes_of (calls w')
  = [(JStr "task", "✓ task Agent activated");
     (JStr "contact", "✓ contact Agent activated")] /\
  notifications (app w') = [activation 0 (JStr "contact") "contact"].
Proof.
  cbv zeta.
  destruct (handleSubmit_pushes_one_activation_per_agent backend
              (typing "Add contact John") emptyWorld
              (JObj [("response", JStr "Added");
                     ("agents", JArr [JStr "task"; JStr "contact"])])
              [JStr "task"; JStr "contact"])
    as (Hcalls & _ & _ & _ & _ & Hfeed);
    [vm_compute; reflexivity | reflexivity | reflexivity
    | repeat constructor; eexists; reflexivity |].
  split.
  - rewrite Hcalls. reflexivity.
  - rewrite Hfeed. reflexivity.
Defined.

(** ** Dispatch without agents *)

(** X6: when the answer of the dispatcher has no [agents], or a falsy
    one, [handleSubmit] pushes nothing and schedules the refresh only:
    the resulting world is given in full. *)
Theorem handleSubmit_without_agents
    (h : Host) (snap : AppState) (w : World) (data agents : JSValue) :
  truthy (JStr (trim (query snap))) = true ->
  fetch h (now w) "POST" (API_URL +:+ "/process")
    (JObj [("query", JStr (query snap))]) = Json data ->
  get_prop data "agents" = Some agents ->
  truthy agents = false ->
  handleSubmit h snap w
  = (mkWorld
       (setLoading false
          (setQuery "" (setResponse data (setLoading true (app w)))))
       (localStorage w) (now w)
       (enqueue (now w + 1500, CbLoadDashboardData) (timers w))
       (calls w ++
          [(now w, CFetch "POST" (API_URL +:+ "/process")
                     (JObj [("query", JStr (query snap))]))]),
     Normal tt).
Proof.
  intros Hquery Hfetch Hagents Hfalsy.
  unfold handleSubmit. rewrite Hquery. cbn [negb].
  rewrite bind_modify_app.
  erewrite try_finally_normal.
  2: { apply try_catch_normal.
       rewrite issue_bind. cbv beta. cbn [now app localStorage timers calls].
       rewrite Hfetch. do 4 step_js. rewrite Hfalsy.
       do 3 step_js. rewrite Hfalsy. cbn [when]. step_js. reflexivity. }
  reflexivity.
Qed.

Lemma handleSubmit_without_agents_witness :
  let w' := fst (handleSubmit assistant (typing "What is next?") emptyWorld) in
  pushes_of (calls w') = [] /\ timers w' = [(1500, CbLoadDashboardData)].
Proof.
  cbv zeta.
  rewrite (handleSubmit_without_agents assistant (typing "What is next?")
             emptyWorld
             (JObj [("success", JBool true); ("response", JStr "Hi");
                    ("model", JStr "llama"); ("tokens_used", JNum 12)])
             JUndefined);
    [| vm_compute; reflexivity | reflexivity | reflexivity | reflexivity].
  split; reflexivity.
Defined.

(** ** What the handlers leave alone *)

Section Frames.
Context {X : Type} (obs : World -> X).

Lemma keeps_try_finally {A} (m : Js A) (final : Js unit) :
  keeps obs m -> keeps obs final -> keeps obs (try_finally m final).
Proof.
  intros Hm Hf w. unfold try_finally. specialize (Hm w).
  destruct (m w) as [w' c]. specialize (Hf w').
  destruct (final w') as [w'' [[] | e]]; cbn [fst] in *; congruence.
Qed.

Lemma keeps_when (b : bool) (m : Js unit) : keeps obs m -> keeps obs (when b m).
Proof. intros Hm. destruct b; [exact Hm | apply keeps_ret]. Qed.

Lemma keeps_js_gt_zero (h : Host) (v : JSValue) : keeps obs (js_gt_zero h v).
Proof.
  unfold js_gt_zero.
  destruct v; try (intros w; reflexivity); destruct (gt_zero h _);
    intros w; reflexivity.
Qed.

Lemma keeps_template (h : Host) (v : JSValue) : keeps obs (template h v).
Proof.
  unfold template. destruct (ToString _ v); intros w; reflexivity.
Qed.

Lemma keeps_call_forEach (path : string) (v : JSValue) (f : JSValue -> Js unit) :
  (forall x, keeps obs (f x)) -> keeps obs (call_forEach path v f).
Proof.
  intros Hf. destruct v; cbn [call_forEach]; try (intros w; reflexivity).
  now apply keeps_forEach.
Qed.

Lemma keeps_call_includes (path : string) (v : JSValue) (x : string) :
  keeps obs (call_includes path v x).
Proof. destruct v; intros w; reflexivity. Qed.

Lemma keeps_if {A} (b : bool) (m k : Js A) :
  keeps obs m -> keeps obs k -> keeps obs (if b then m else k).
Proof. now destruct b. Qed.
End Frames.


Lemma pair_eq_inv {A B} (a c : A) (b d : B) : (a, b) = (c, d) -> a = c /\ b = d.
Proof.
  intros H. split; [exact (f_equal fst H) | exact (f_equal snd H)].
Qed.

Ltac split_pairs H :=
  repeat match type of H with
         | (_, _) = (_, _) =>
             let H' := fresh "Hobs" in
             apply pair_eq_inv in H; destruct H as [H H']
         end;
  repeat match goal with
         | H' : (_, _) = (_, _) |- _ =>
             let H'' := fresh "Hobs" in
             apply pair_eq_inv in H'; destruct H' as [H' H'']
         end.

Lemma lookup_beside (k k' : string) (m m' : gmap string Stored) :
  delete k m' = delete k m -> k' <> k -> m' !! k' = m !! k'.
Proof.
  intros H Hne.
  rewrite <- (lookup_delete_ne m' k k'), H by congruence.
  apply lookup_delete_ne. congruence.
Qed.

Ltac frame_tac leaf :=
  repeat match goal with
  | |- keeps _ (bind _ _) => apply keeps_bind; [| intros ?]
  | |- keeps _ (try_catch _ _) => apply keeps_try_catch; [| intros ?]
  | |- keeps _ (try_finally _ _) => apply keeps_try_finally
  | |- keeps _ (when _ _) => apply keeps_when
  | |- keeps _ (if _ then _ else _) => apply keeps_if
  | |- keeps _ (ret _) => apply keeps_ret
  | |- keeps _ (throw _) => apply keeps_throw
  | |- keeps _ (settled _) => apply keeps_settled
  | |- keeps _ (json _) => apply keeps_json
  | |- keeps _ (prop _ _) => apply keeps_prop
  | |- keeps _ (Promise_all _) => apply keeps_Promise_all
  | |- keeps _ (js_gt_zero _ _) => apply keeps_js_gt_zero
  | |- keeps _ (template _ _) => apply keeps_template
  | |- keeps _ (call_includes _ _ _) => apply keeps_call_includes
  | |- keeps _ (call_forEach _ _ _) => apply keeps_call_forEach; intros ?
  | |- keeps _ (addNotification _ _ _) => solve [leaf]
  | |- keeps _ (saveChatHistory _) => solve [leaf]
  | |- keeps _ (modify_app _) => intros ?; reflexivity
  | |- keeps _ (issue _ _ _ _) => intros ?; reflexivity
  | |- keeps _ (setTimeout _ _) => intros ?; reflexivity
  | |- keeps _ Date_now => intros ?; reflexivity
  end.

Lemma beside_submit_addNotification (snap : AppState) (type : JSValue)
    (message : string) :
  keeps beside_submit (addNotification snap type message).
Proof.
  intros w. unfold beside_submit. cbn.
  now rewrite delete_insert_eq.
Qed.

Lemma handleSubmit_keeps (h : Host) (snap : AppState) :
  keeps beside_submit (handleSubmit h snap).
Proof.
  unfold handleSubmit. frame_tac ltac:(apply beside_submit_addNotification).
Qed.

(** X7: whatever the backend answers, [handleSubmit] never touches the
    chat cells, the collections, the contact page, [isAuthenticated], nor
    any key of the storage other than [pos_notifications]. *)
Theorem handleSubmit_leaves_the_rest (h : Host) (snap : AppState) (w : World) :
  let w' := fst (handleSubmit h snap w) in
  chat_cells (app w') = chat_cells (app w) /\
  collections_of (app w') = collections_of (app w) /\
  contactPage (app w') = contactPage (app w) /\
  isAuthenticated (app w') = isAuthenticated (app w) /\
  now w' = now w /\
  forall k : string, k <> "pos_notifications" ->
    localStorage w' !! k = localStorage w !! k.
Proof.
  cbv zeta. pose proof (handleSubmit_keeps h snap w) as H.
  unfold beside_submit in H. split_pairs H.
  repeat (split; [assumption |]).
  intros k Hk. now apply (lookup_beside "pos_notifications").
Qed.


(** ** Chat session, whatever the backend answers *)

Lemma get_prop_total (v x : JSValue) (k k' : string) :
  get_prop v k = Some x -> exists y, get_prop v k' = Some y.
Proof. destruct v; try discriminate; intros _; cbn; eauto. Qed.

Lemma loadChatHistory_synced (w : World) (history : list ChatMessage) :
  localStorage w !! "pos_chat_history" = Some (StoredChat history) ->
  loadChatHistory w
  = (mkWorld (setChatHistory history (app w)) (localStorage w) (now w)
       (timers w) (calls w), Normal tt).
Proof. intros H. unfold loadChatHistory. rewrite H. reflexivity. Qed.

Ltac chat_stored :=
  cbn [localStorage];
  rewrite ?(lookup_insert_ne _ "pos_notifications" "pos_chat_history")
    by discriminate;
  apply lookup_insert_eq.

Ltac sent tail :=
  split; [reflexivity |];
  split;
    [exists tail; split;
     [reflexivity | first [left; reflexivity | right; do 4 eexists; reflexivity]]
    |];
  split; [chat_stored |];
  split; [erewrite loadChatHistory_synced by chat_stored; reflexivity |];
  split; [reflexivity |]; split; [reflexivity |];
  eexists; pushes; reflexivity.

(** X8: for a non-blank input and every host, [handleGroqChat] completes
    normally; the transcript afterwards is the transcript of the render
    followed by the user's turn and by at most one assistant turn (it is
    never shortened or reordered); what is kept under [pos_chat_history]
    is the transcript on screen, so that [loadChatHistory] finds nothing
    to change; the input is cleared, [groqLoading] is back to [false],
    and exactly one notification of kind [groq] is pushed. *)
Theorem handleGroqChat_appends_only (h : Host) (snap : AppState) (w : World) :
  truthy (JStr (trim (groqInput snap))) = true ->
  let userMessage :=
    mkChatMessage "user" (JStr (groqInput snap)) (now w) JUndefined JUndefined in
  let w' := fst (handleGroqChat h snap w) in
  snd (handleGroqChat h snap w) = Normal tt /\
  (exists tail,
      chatHistory (app w') = chatHistory snap ++ userMessage :: tail /\
      (tail = [] \/
       exists content stamp model tokens,
         tail = [mkChatMessage "assistant" content stamp model tokens])) /\
  localStorage w' !! "pos_chat_history"
  = Some (StoredChat (chatHistory (app w'))) /\
  loadChatHistory w' = (w', Normal tt) /\
  groqInput (app w') = "" /\ groqLoading (app w') = false /\
  exists text : string,
    pushes_of (calls w') = pushes_of (calls w) ++ [(JStr "groq", text)].
Proof.
  intros Hinput. cbv zeta.
  unfold handleGroqChat. rewrite Hinput. cbn [negb]. run_js.
  destruct (get_prop (tasks snap) "length") as [backlog |]; run_js;
    [| sent (@nil ChatMessage)].
  destruct (get_prop (events snap) "length") as [upcoming |]; run_js;
    [| sent (@nil ChatMessage)].
  match goal with
  | |- context [fetch h ?t ?m ?u ?b] =>
      destruct (fetch h t m u b) as [e | e | data]
  end; run_js; [sent (@nil ChatMessage) | sent (@nil ChatMessage) |].
  destruct (get_prop data "success") as [success |] eqn:Hsuccess; run_js;
    [| sent (@nil ChatMessage)].
  destruct (get_prop_total data success "success" "response" Hsuccess) as [content Hc].
  destruct (get_prop_total data success "success" "model" Hsuccess) as [model Hm].
  destruct (get_prop_total data success "success" "tokens_used" Hsuccess)
    as [tokens Ht].
  destruct (get_prop_total data success "success" "error" Hsuccess) as [err He].
  destruct (truthy success).
  - rewrite Hc. run_js. rewrite Hm. run_js. rewrite Ht. run_js.
    rewrite <- app_assoc. cbn [List.app].
    sent [mkChatMessage "assistant" content (now w) model tokens].
  - rewrite He. run_js. unfold template.
    destruct (ToString (number_text h) err); run_js; sent (@nil ChatMessage).
Qed.

Lemma handleGroqChat_appends_only_witness :
  let w' := fst (handleGroqChat offline (typing "hello") emptyWorld) in
  localStorage w' !! "pos_chat_history" = Some (StoredChat (chatHistory (app w'))) /\
  groqLoading (app w') = false.
Proof.
  cbv zeta.
  destruct (handleGroqChat_appends_only offline (typing "hello") emptyWorld)
    as (_ & _ & Hstored & _ & _ & Hloading & _); [vm_compute; reflexivity |].
  split; [exact Hstored | exact Hloading].
Defined.

(** ** A successful chat turn *)

Lemma truthy_get_prop (v : JSValue) (k : string) :
  truthy v = true -> get_prop v k = Some (get_prop_opt v k).
Proof. destruct v; try discriminate; reflexivity. Qed.

(** X9: when the assistant answers with a truthy [success], the
    transcript grows by two turns: the user's, then the assistant's with
    [data.response] as content, [data.model] and [data.tokens_used]
    (absent fields read as [undefined]); the one push is
    "Martin responded". *)
Theorem handleGroqChat_answer_is_appended
    (h : Host) (snap : AppState) (w : World) (data : JSValue) :
  truthy (JStr (trim (groqInput snap))) = true ->
  truthy (tasks snap) = true -> truthy (events snap) = true ->
  (forall body,
      fetch h (now w) "POST" (API_URL +:+ "/groq/chat") body = Json data) ->
  truthy (get_prop_opt data "success") = true ->
  let userMessage :=
    mkChatMessage "user" (JStr (groqInput snap)) (now w) JUndefined JUndefined in
  let w' := fst (handleGroqChat h snap w) in
  (exists stamp,
      chatHistory (app w')
      = chatHistory snap ++
        [userMessage;
         mkChatMessage "assistant" (get_prop_opt data "response") stamp
           (get_prop_opt data "model") (get_prop_opt data "tokens_used")]) /\
  length (chatHistory (app w')) = S (S (length (chatHistory snap))) /\
  pushes_of (calls w')
  = pushes_of (calls w) ++ [(JStr "groq", "🤖 Martin responded")].
Proof.
  intros Hinput Htasks Hevents Hfetch Hsuccess. cbv zeta.
  assert (Hdata : truthy data = true).
  { destruct data; try reflexivity; discriminate. }
  unfold handleGroqChat. rewrite Hinput. cbn [negb]. run_js.
  rewrite (truthy_get_prop _ "length" Htasks). run_js.
  rewrite (truthy_get_prop _ "length" Hevents). run_js.
  rewrite Hfetch. run_js.
  rewrite (truthy_get_prop _ "success" Hdata). run_js. rewrite Hsuccess.
  rewrite (truthy_get_prop _ "response" Hdata). run_js.
  rewrite (truthy_get_prop _ "model" Hdata). run_js.
  rewrite (truthy_get_prop _ "tokens_used" Hdata). run_js.
  rewrite <- app_assoc. cbn [List.app].
  split; [eexists; reflexivity |].
  split; [cbn; rewrite length_app; cbn [length]; lia |].
  pushes; reflexivity.
Qed.

Lemma handleGroqChat_answer_is_appended_witness :
  let w' := fst (handleGroqChat assistant (typing "hello") emptyWorld) in
  length (chatHistory (app w')) = 2%nat /\
  pushes_of (calls w') = [(JStr "groq", "🤖 Martin responded")].
Proof.
  cbv zeta.
  destruct (handleGroqChat_answer_is_appended assistant (typing "hello")
              emptyWorld
              (JObj [("success", JBool true); ("response", JStr "Hi");
                     ("model", JStr "llama"); ("tokens_used", JNum 12)]))
    as (_ & Hlength & Hpushes);
    [vm_compute; reflexivity | reflexivity | reflexivity
    | intros body; reflexivity | reflexivity |].
  split; [exact Hlength | exact Hpushes].
Defined.

Lemma beside_chat_addNotification (snap : AppState) (type : JSValue)
    (message : string) :
  keeps beside_chat (addNotification snap type message).
Proof.
  intros w. unfold beside_chat. cbn. now rewrite delete_insert_eq.
Qed.

Lemma beside_chat_saveChatHistory (history : list ChatMessage) :
  keeps beside_chat (saveChatHistory history).
Proof.
  intros w. unfold beside_chat. cbn.
  now rewrite delete_insert_ne, delete_insert_eq by discriminate.
Qed.

Lemma handleGroqChat_keeps (h : Host) (snap : AppState) :
  keeps beside_chat (handleGroqChat h snap).
Proof.
  unfold handleGroqChat.
  frame_tac ltac:(first [ apply beside_chat_addNotification
                        | apply beside_chat_saveChatHistory ]).
Qed.

(** X10: whatever the backend answers, [handleGroqChat] never touches
    the query, [loading], the response, the collections, the contact
    page, [isAuthenticated], the timers, nor any key of the storage other
    than [pos_chat_history] and [pos_notifications]. *)
Theorem handleGroqChat_leaves_the_rest (h : Host) (snap : AppState) (w : World) :
  let w' := fst (handleGroqChat h snap w) in
  dispatch_cells (app w') = dispatch_cells (app w) /\
  collections_of (app w') = collections_of (app w) /\
  contactPage (app w') = contactPage (app w) /\
  isAuthenticated (app w') = isAuthenticated (app w) /\
  now w' = now w /\ timers w' = timers w /\
  forall k : string, k <> "pos_chat_history" -> k <> "pos_notifications" ->
    localStorage w' !! k = localStorage w !! k.
Proof.
  cbv zeta. pose proof (handleGroqChat_keeps h snap w) as H.
  unfold beside_chat in H. split_pairs H.
  repeat (split; [assumption |]).
  intros k Hk Hk'.
  match goal with Hs : delete _ _ = delete _ _ |- _ => rename Hs into Hst end.
  rewrite <- (lookup_delete_ne (localStorage _) "pos_notifications" k)
    by congruence.
  rewrite <- (lookup_delete_ne (delete _ (localStorage _)) "pos_chat_history" k)
    by congruence.
  rewrite Hst, !lookup_delete_ne by congruence. reflexivity.
Qed.

(** ** Chat: clearing the transcript *)

(** X11: [clearChatHistory] empties the transcript on screen and removes
    [pos_chat_history], so that neither [loadChatHistory] nor a reload of
    the page brings the transcript back; it pushes one notification of
    kind [groq] and leaves the dispatcher's cells, the collections, the
    timers and the other keys of the storage alone. *)
Theorem clearChatHistory_forgets_the_transcript (snap : AppState) (w : World) :
  let w' := fst (clearChatHistory snap w) in
  chatHistory (app w') = [] /\
  localStorage w' !! "pos_chat_history" = None /\
  loadChatHistory w' = (w', Normal tt) /\
  chatHistory (app (fst (loadChatHistory (reloaded w')))) = [] /\
  pushes_of (calls w')
  = pushes_of (calls w) ++ [(JStr "groq", "🧹 Chat history cleared")] /\
  dispatch_cells (app w') = dispatch_cells (app w) /\
  collections_of (app w') = collections_of (app w) /\
  timers w' = timers w /\
  forall k : string, k <> "pos_chat_history" -> k <> "pos_notifications" ->
    localStorage w' !! k = localStorage w !! k.
Proof.
  cbv zeta.
  assert (Hgone : localStorage (fst (clearChatHistory snap w))
                    !! "pos_chat_history" = None).
  { cbn. rewrite lookup_insert_ne by discriminate. apply lookup_delete_eq. }
  split; [reflexivity |]. split; [exact Hgone |].
  split; [unfold loadChatHistory; now rewrite Hgone |].
  split; [unfold loadChatHistory, reloaded; cbn [localStorage]; now rewrite Hgone |].
  split; [cbn; pushes; reflexivity |].
  split; [reflexivity |]. split; [reflexivity |]. split; [reflexivity |].
  intros k Hk Hk'. cbn.
  rewrite lookup_insert_ne, lookup_delete_ne by congruence. reflexivity.
Qed.

(** ** Refresh *)

Lemma Promise_all_rejects (rs : list Response) (msg : string) :
  In (NetworkError msg) rs ->
  exists e, forall w, Promise_all rs w = (w, Thrown e).
Proof.
  unfold Promise_all. induction rs as [| r rs IH]; intros Hin; [destruct Hin |].
  destruct r as [e | e | v].
  - exists e. reflexivity.
  - destruct Hin as [Hin | Hin]; [discriminate |].
    destruct (IH Hin) as [e' He']. exists e'. intros w. cbn. apply He'.
  - destruct Hin as [Hin | Hin]; [discriminate |].
    destruct (IH Hin) as [e' He']. exists e'. intros w. cbn. apply He'.
Qed.

Lemma Promise_all_resolves (rs : list Response) (w : World) :
  (forall msg, ~ In (NetworkError msg) rs) ->
  Promise_all rs w = (w, Normal tt).
Proof.
  unfold Promise_all. induction rs as [| r rs IH]; intros Hno; [reflexivity |].
  destruct r as [e | e | v].
  - destruct (Hno e). now left.
  - cbn. apply IH. intros msg Hin. apply (Hno msg). now right.
  - cbn. apply IH. intros msg Hin. apply (Hno msg). now right.
Qed.

Lemma stages_requests (t : Z) :
  dashboard_requests t
  = map (fun c => (t, CFetch "GET" (API_URL +:+ cell_path c) JUndefined)) stages.
Proof. reflexivity. Qed.

(** X12: when one of the seven requests of a full refresh fails in
    transport ([fetch] rejects), [Promise.all] rejects before any setter
    runs: all seven requests were made and nothing else changed, also for
    the collections whose requests succeeded. *)
Theorem loadDashboardData_transport_failure_changes_nothing
    (h : Host) (w : World) (c : Cell) (msg : string) :
  stage_response h (now w) c = NetworkError msg ->
  loadDashboardData h w
  = (mkWorld (app w) (localStorage w) (now w) (timers w)
       (calls w ++ dashboard_requests (now w)), Normal tt).
Proof.
  intros Hfail. unfold loadDashboardData, try_catch.
  repeat (rewrite issue_bind; cbv beta; cbn [now app localStorage timers calls]).
  match goal with
  | |- context [Promise_all ?rs] =>
      destruct (Promise_all_rejects rs msg) as [e He]
  end.
  { rewrite <- Hfail. unfold stage_response.
    destruct c; cbn [cell_path In]; tauto. }
  erewrite bind_thrown by apply He.
  rewrite <- !app_assoc. reflexivity.
Qed.

Ltac stage_leaf :=
  run_js;
  match goal with
  | |- context [match stage_value _ _ ?c with _ => _ end] =>
      destruct c;
      unfold parses, stage_value, stage_response, earlier;
      cbn [cell_path cell_field stage_index stages take forallb cell
           setContext setAvatars setTasks setEvents setWeather setEmails
           setContacts context avatars tasks events weather emails contacts];
      repeat match goal with
             | E : fetch _ _ _ _ _ = _ |- _ => rewrite E
             | E : get_prop _ _ = _ |- _ => rewrite E
             end;
      cbn [andb];
      repeat match goal with
             | |- context [match fetch ?h ?t ?m ?u ?b with _ => _ end] =>
                 destruct (fetch h t m u b)
             | |- context [match get_prop ?v ?k with _ => _ end] =>
                 destruct (get_prop v k)
             end;
      reflexivity
  end.

Ltac stage_json Hup :=
  match goal with
  | |- context [json (fetch ?h ?t ?m ?u ?b)] =>
      let E := fresh "E" in
      destruct (fetch h t m u b) as [? | ? | ?] eqn:E;
      [ exfalso;
        first [ eapply (Hup ContextCell); exact E
              | eapply (Hup AvatarsCell); exact E
              | eapply (Hup TasksCell); exact E
              | eapply (Hup EventsCell); exact E
              | eapply (Hup WeatherCell); exact E
              | eapply (Hup EmailsCell); exact E
              | eapply (Hup ContactsCell); exact E ]
      | stage_leaf | ]
  end.

Ltac stage_prop :=
  match goal with
  | |- context [prop ?v ?k] =>
      let F := fresh "F" in
      destruct (get_prop v k) eqn:F; [| unfold prop; rewrite F; stage_leaf]
  end.

(** X13: when all seven requests get an answer, a full refresh sets the
    cells in the order context, avatars, tasks, events, weather, emails,
    contacts, and stops at the first body that cannot be unwrapped: a
    cell is updated exactly when its own body and the bodies of all
    earlier cells can be; the later cells keep their old value, even when
    their bodies are fine. *)
Theorem loadDashboardData_updates_until_first_bad_body
    (h : Host) (w : World) (c : Cell) :
  (forall c' msg, stage_response h (now w) c' <> NetworkError msg) ->
  cell c (app (fst (loadDashboardData h w)))
  = match stage_value h (now w) c with
    | Some v =>
        if forallb (parses h (now w)) (earlier c) then v else cell c (app w)
    | None => cell c (app w)
    end.
Proof.
  intros Hup. unfold loadDashboardData, try_catch.
  repeat (rewrite issue_bind; cbv beta; cbn [now app localStorage timers calls]).
  erewrite bind_normal.
  2: { apply Promise_all_resolves. intros msg Hin. cbn [In] in Hin.
       decompose [or] Hin;
         first [ now apply (Hup ContextCell msg)
               | now apply (Hup AvatarsCell msg)
               | now apply (Hup TasksCell msg)
               | now apply (Hup EventsCell msg)
               | now apply (Hup WeatherCell msg)
               | now apply (Hup EmailsCell msg)
               | now apply (Hup ContactsCell msg)
               | contradiction ]. }
  cbv beta.
  stage_json Hup. do 2 step_js.
  stage_json Hup. step_js. stage_prop. do 2 step_js.
  stage_json Hup. step_js. stage_prop. do 2 step_js.
  stage_json Hup. step_js. stage_prop. do 2 step_js.
  stage_json Hup. do 2 step_js.
  stage_json Hup. step_js. stage_prop. do 2 step_js.
  stage_json Hup. step_js. stage_prop. step_js.
  stage_leaf.
Qed.

Lemma loadDashboardData_keeps (h : Host) :
  keeps beside_refresh (loadDashboardData h).
Proof. unfold loadDashboardData. frame_tac idtac. Qed.

(** X14: for every host, a full refresh completes normally, makes
    exactly the seven requests, in the order of the source, whatever the
    answers are, pushes no notification, and touches neither the
    dispatcher's cells, the chat cells, the feed, the contact page,
    [isAuthenticated], the storage nor the timers. *)
Theorem loadDashboardData_is_silent (h : Host) (w : World) :
  let w' := fst (loadDashboardData h w) in
  snd (loadDashboardData h w) = Normal tt /\
  calls w' = calls w ++ dashboard_requests (now w) /\
  pushes_of (calls w') = pushes_of (calls w) /\
  dispatch_cells (app w') = dispatch_cells (app w) /\
  chat_cells (app w') = chat_cells (app w) /\
  notifications (app w') = notifications (app w) /\
  contactPage (app w') = contactPage (app w) /\
  isAuthenticated (app w') = isAuthenticated (app w) /\
  localStorage w' = localStorage w /\ now w' = now w /\ timers w' = timers w.
Proof.
  cbv zeta.
  pose proof (loadDashboardData_keeps h w) as H.
  destruct (loadDashboardData_calls h w) as (_ & _ & Hcalls).
  unfold beside_refresh in H. split_pairs H.
  split; [apply try_catch_swallow_normal |].
  split; [exact Hcalls |].
  split; [rewrite Hcalls, pushes_of_app, app_nil_r; reflexivity |].
  repeat (split; [assumption |]). assumption.
Qed.

(** X15: for every host, [loadContacts] completes normally and makes the
    one request for the contacts; it stores what a full refresh would
    store for the contacts, or, when the request or the unwrapping fails,
    nothing; no other cell, nor the storage, the feed or the timers,
    changes. *)
Theorem loadContacts_sets_contacts_or_nothing (h : Host) (w : World) :
  let w' := fst (loadContacts h w) in
  snd (loadContacts h w) = Normal tt /\
  app w'
  = match stage_value h (now w) ContactsCell with
    | Some v => setContacts v (app w)
    | None => app w
    end /\
  (forall c, c <> ContactsCell -> cell c (app w') = cell c (app w)) /\
  calls w'
  = calls w ++ [(now w, CFetch "GET" (API_URL +:+ "/contacts") JUndefined)] /\
  beside_refresh w' = beside_refresh w.
Proof.
  cbv zeta. rewrite loadContacts_run. cbn [fst snd app calls].
  split; [reflexivity |]. split; [reflexivity |].
  split.
  - intros c Hc. destruct (stage_value h (now w) ContactsCell); [| reflexivity].
    destruct c; try reflexivity. contradiction.
  - split; [reflexivity |].
    unfold beside_refresh. cbn [app localStorage now timers].
    destruct (stage_value h (now w) ContactsCell); reflexivity.
Qed.

Lemma loadDashboardData_updates_until_first_bad_body_witness :
  let s := app (fst (loadDashboardData brokenTasks emptyWorld)) in
  context s = JObj [] /\ tasks s = JArr [] /\ contacts s = JArr [].
Proof.
  cbv zeta.
  split; [| split].
  - apply (loadDashboardData_updates_until_first_bad_body brokenTasks emptyWorld
             ContextCell).
    intros c' msg. destruct c'; discriminate.
  - apply (loadDashboardData_updates_until_first_bad_body brokenTasks emptyWorld
             TasksCell).
    intros c' msg. destruct c'; discriminate.
  - apply (loadDashboardData_updates_until_first_bad_body brokenTasks emptyWorld
             ContactsCell).
    intros c' msg. destruct c'; discriminate.
Defined.

Lemma loadDashboardData_transport_failure_changes_nothing_witness :
  loadDashboardData offline emptyWorld
  = (mkWorld initialState ∅ 0 [] (dashboard_requests 0), Normal tt).
Proof.
  apply (loadDashboardData_transport_failure_changes_nothing offline emptyWorld
           WeatherCell "Failed to fetch").
  reflexivity.
Defined.

(** ** Pages *)

Lemma chunks_take {A} (l : list A) (n : nat) :
  concat (map (fun i => take 5 (drop (5 * i) l)) (seq 0 n)) = take (5 * n) l.
Proof.
  induction n as [| n IH]; [reflexivity |].
  rewrite seq_S, map_app, concat_app, IH. cbn [map concat Nat.add].
  rewrite app_nil_r.
  replace (5 * S n)%nat with (5 * n + 5)%nat by lia.
  apply take_take_drop.
Qed.

Lemma paginate_from_one {A} (items : list A) (page : Z) :
  1 <= page ->
  paginate items page = take 5 (drop (Z.to_nat (5 * (page - 1))) items).
Proof.
  intros Hpage. unfold paginate, js_slice, itemsPerPage.
  destruct (Z.ltb_spec ((page - 1) * 5) 0); [lia |].
  destruct (Z.ltb_spec ((page - 1) * 5 + 5) 0); [lia |].
  destruct (Z.le_gt_cases (Z.of_nat (length items)) ((page - 1) * 5)).
  - rewrite !(drop_ge items) by lia. now rewrite !take_nil.
  - replace (Z.to_nat (Z.min ((page - 1) * 5) (Z.of_nat (length items))))
      with (Z.to_nat (5 * (page - 1))) by lia.
    set (rest := drop (Z.to_nat (5 * (page - 1))) items).
    assert (Hrest : length rest
                    = (length items - Z.to_nat (5 * (page - 1)))%nat)
      by apply length_drop.
    destruct (Z.le_gt_cases ((page - 1) * 5 + 5) (Z.of_nat (length items))).
    + f_equal. lia.
    + rewrite !take_ge by lia. reflexivity.
Qed.

(** X16: the pages 1 to [Math.ceil(n / 5)] of a collection, one after
    the other, are the collection: every item is shown on exactly one
    page, in order; none of these pages is empty or longer than 5. *)
Theorem pages_partition_the_collection {A} (items : list A) :
  concat (map (paginate items) (pages (Z.of_nat (length items)))) = items /\
  Forall (fun page => paginate items page <> []
                      /\ (length (paginate items page) <= 5)%nat)
    (pages (Z.of_nat (length items))).
Proof.
  pose proof (totalPages_bounds (Z.of_nat (length items))) as Hb.
  unfold pages, itemsPerPage. split.
  - rewrite <- seq_shift, !map_map.
    rewrite (map_ext _ (fun i => take 5 (drop (5 * i) items))).
    + rewrite chunks_take. apply take_ge. lia.
    + intros i. rewrite paginate_from_one by lia. do 2 f_equal. lia.
  - apply List.Forall_forall. intros page Hin.
    apply in_map_iff in Hin as (i & <- & Hi). apply in_seq in Hi.
    destruct (paginate_valid items (Z.of_nat i)) as [Hp Hne]; [lia |].
    split; [exact Hne |]. rewrite Hp, length_take. lia.
Qed.

Lemma click_button_from_one (page : Z) (click : bool * Z) :
  1 <= page -> 1 <= click_button page click.
Proof.
  intros Hpage. destruct click as [forward n]. unfold click_button, Pagination.
  destruct (totalPages n itemsPerPage <=? 1); [exact Hpage |].
  destruct forward; cbn [next previous].
  - destruct (page =? totalPages n itemsPerPage); lia.
  - destruct (Z.eqb_spec page 1); lia.
Qed.

(** X17: starting from page 1, no sequence of clicks on the buttons of
    [Pagination], whatever sizes the collection has in between, brings
    the page number below 1; hence the slice shown is always counted from
    the start of the collection.  (For a page below 1 [slice] would count
    from the end: page -1 of twelve items would show the items 3 to 7.) *)
Theorem page_never_drops_below_one {A} (clicks : list (bool * Z))
    (items : list A) :
  1 <= browse clicks 1 /\
  paginate items (browse clicks 1)
  = take 5 (drop (Z.to_nat (5 * (browse clicks 1 - 1))) items) /\
  paginate twelve (-1) = map JNum [3; 4; 5; 6; 7].
Proof.
  assert (H : forall page, 1 <= page -> 1 <= browse clicks page).
  { unfold browse. induction clicks as [| click clicks IH]; intros page Hpage;
      [exact Hpage |].
    cbn [fold_left]. apply IH. now apply click_button_from_one. }
  split; [apply H; lia |].
  split; [apply paginate_from_one, H; lia | reflexivity].
Qed.

(** ** [fixEncoding] *)

Lemma prefix_cons (a b : ascii) (p s : string) :
  String.prefix (String a p) (String b s) = true <->
  a = b /\ String.prefix p s = true.
Proof.
  cbn. destruct (ascii_dec a b) as [-> | Hne]; split.
  - now intros H.
  - now intros [_ H].
  - discriminate.
  - now intros [H _].
Qed.

Lemma prefix_trans (p q s : string) :
  String.prefix p q = true -> String.prefix q s = true ->
  String.prefix p s = true.
Proof.
  revert p q. induction s as [| c s IH]; intros p q Hpq Hqs.
  - destruct q; [| discriminate]. destruct p; [reflexivity | discriminate].
  - destruct p as [| a p]; [reflexivity |].
    destruct q as [| b q]; [discriminate |].
    apply prefix_cons in Hpq as [-> Hpq]. apply prefix_cons in Hqs as [-> Hqs].
    apply prefix_cons. split; [reflexivity |]. now apply (IH p q).
Qed.

Lemma append_char (q : ascii) (t : string) : String q EmptyString +:+ t = String q t.
Proof. reflexivity. Qed.

(** A string that holds no [q] starts the result of replacing [pat] by
    [q] only where it started the text. *)
Lemma prefix_replace_from (pat p : string) (q : ascii) (s : string) :
  has_char q p = false ->
  String.prefix p (replace_from pat (String q EmptyString) 0 s) = true ->
  String.prefix p s = true.
Proof.
  revert p. induction s as [| c s IH]; intros p Hq Hp; [exact Hp |].
  destruct p as [| d p]; [reflexivity |].
  cbn [has_char] in Hq. apply orb_false_iff in Hq as [Hd Hq].
  cbn [replace_from] in Hp.
  destruct (String.prefix pat (String c s)).
  - rewrite append_char in Hp. apply prefix_cons in Hp as [<- _].
    now rewrite Ascii.eqb_refl in Hd.
  - apply prefix_cons in Hp as [-> Hp]. apply prefix_cons.
    split; [reflexivity |]. now apply IH.
Qed.

(** Once [pat] has been replaced by a character that [p] does not hold,
    no string [p] that [pat] starts is left in the text. *)
Lemma contains_replace_from (pat p : string) (q : ascii) :
  p <> EmptyString -> has_char q p = false -> String.prefix pat p = true ->
  forall s skip,
    contains p (replace_from pat (String q EmptyString) skip s) = false.
Proof.
  intros Hne Hq Hpat. induction s as [| c s IH]; intros skip.
  - cbn. destruct p; [contradiction | reflexivity].
  - cbn [replace_from]. destruct skip as [| skip]; [| apply IH].
    destruct (String.prefix pat (String c s)) eqn:Hhere.
    + rewrite append_char. cbn [contains]. rewrite IH, orb_false_r.
      destruct p as [| d p]; [contradiction |].
      cbn [has_char] in Hq. apply orb_false_iff in Hq as [Hd _].
      destruct (String.prefix (String d p) (String q _)) eqn:E; [| reflexivity].
      apply prefix_cons in E as [<- _]. now rewrite Ascii.eqb_refl in Hd.
    + cbn [contains]. rewrite IH, orb_false_r.
      destruct (String.prefix p (String c (replace_from pat _ 0 s))) eqn:E;
        [| reflexivity].
      assert (Hs : String.prefix p (String c s) = true).
      { apply (prefix_replace_from pat p q); [exact Hq |].
        cbn [replace_from]. now rewrite Hhere. }
      now rewrite (prefix_trans pat p _ Hpat Hs) in Hhere.
Qed.

Lemma replace_from_absent (p r s : string) :
  contains p s = false -> replace_from p r 0 s = s.
Proof.
  induction s as [| c s IH]; intros H; [reflexivity |].
  cbn [contains] in H. apply orb_false_iff in H as [Hhere Hrest].
  cbn [replace_from]. rewrite Hhere. now rewrite IH.
Qed.

Lemma contains_prefix (g p s : string) :
  String.prefix g p = true -> contains g s = false -> contains p s = false.
Proof.
  intros Hg. induction s as [| c s IH]; intros H.
  - cbn in *. destruct p; [| reflexivity]. destruct g; [exact H | discriminate].
  - cbn [contains] in *. apply orb_false_iff in H as [Hhere Hrest].
    rewrite (IH Hrest), orb_false_r.
    destruct (String.prefix p (String c s)) eqn:E; [| reflexivity].
    now rewrite (prefix_trans g p _ Hg E) in Hhere.
Qed.

(** X18: [fixEncoding] returns a text that does not hold the four bytes
    all its patterns start with (the garbled form of the first byte of a
    three-byte character) as it is. *)
Theorem fixEncoding_leaves_clean_text (s : string) :
  contains garbled s = false -> fixEncoding (JStr s) = Some (JStr s).
Proof.
  intros Hclean. unfold fixEncoding.
  destruct (negb (truthy (JStr s))); [reflexivity |].
  unfold fix_quotes, replace_all.
  rewrite (replace_from_absent garbled_check)
    by (apply (contains_prefix garbled); [reflexivity | exact Hclean]).
  rewrite (replace_from_absent garbled_ellipsis)
    by (apply (contains_prefix garbled); [reflexivity | exact Hclean]).
  rewrite (replace_from_absent garbled_open_quote)
    by (apply (contains_prefix garbled); [reflexivity | exact Hclean]).
  rewrite (replace_from_absent garbled_close_quote)
    by (apply (contains_prefix garbled); [reflexivity | exact Hclean]).
  rewrite (replace_from_absent garbled_bullet)
    by (apply (contains_prefix garbled); [reflexivity | exact Hclean]).
  reflexivity.
Qed.

Lemma fixEncoding_leaves_clean_text_witness :
  fixEncoding (JStr "✓ task Agent activated")
  = Some (JStr "✓ task Agent activated").
Proof. apply fixEncoding_leaves_clean_text. reflexivity. Defined.

(** X19: the fifth replacement of [fixEncoding] never applies: its
    pattern starts with the pattern of the fourth one, which has already
    been replaced by a double quote everywhere.  For every text the
    result is that of the first four replacements; a garbled bullet
    comes out as a double quote followed by the cent sign, whereas the
    ellipsis, whose pattern also starts with the fourth pattern but is
    replaced before it, is restored. *)
Theorem fixEncoding_never_restores_a_bullet (text : string) :
  fixEncoding (JStr text) = Some (JStr (fix_quotes text)) /\
  fixEncoding (JStr garbled_bullet)
  = Some (JStr (double_quote +:+ bytes [194; 162]%nat)) /\
  fixEncoding (JStr garbled_ellipsis) = Some (JStr "…").
Proof.
  split; [| split; reflexivity].
  unfold fixEncoding.
  destruct text as [| c text]; [reflexivity |].
  cbn [truthy negb]. 
  change (negb (truthy (JStr (String c text)))) with false. cbv iota.
  do 2 f_equal. unfold replace_all. apply replace_from_absent.
  unfold fix_quotes, replace_all.
  apply (contains_replace_from garbled_close_quote garbled_bullet);
    [discriminate | reflexivity | reflexivity].
Qed.

(** ** Session *)

Lemma loadDashboardData_pair (h : Host) (w : World) :
  loadDashboardData h w = (fst (loadDashboardData h w), Normal tt).
Proof.
  unfold loadDashboardData.
  match goal with
  | |- try_catch ?m ?k ?w0 = _ =>
      pose proof (try_catch_swallow_normal m w0) as H;
      destruct (try_catch m k w0) as [w' c]
  end.
  cbn [snd] in H. now subst c.
Qed.

(** X20: with an empty email or password, or when an account is created
    with a password shorter than 6, [handleAuth] changes nothing of the
    world (no request, no write to the storage, [isAuthenticated] as it
    was): it only reports the error and enables the form again. *)
Theorem handleAuth_rejects_incomplete_forms
    (upper : string -> string) (h : Host) (snap : AppState)
    (email password : string) (showLogin : bool) (w : World) (sh : Shell) :
  email = "" \/ password = "" \/
  (showLogin = false /\ utf16_length password < 6) ->
  let r := handleAuth upper h snap email password showLogin w sh in
  fst r = w /\
  authError (snd r)
  = (if String.eqb email "" || String.eqb password ""
     then "Please fill all fields"
     else "Password must be at least 6 characters") /\
  authError (snd r) <> "" /\ authLoading (snd r) = false /\
  userName (snd r) = userName sh /\ userEmail (snd r) = userEmail sh.
Proof.
  intros Hbad. cbv zeta. unfold handleAuth, authenticate.
  destruct (String.eqb_spec email ""), (String.eqb_spec password "");
    cbn [negb andb orb fst snd authError authLoading userName userEmail];
    try (repeat split; discriminate).
  destruct Hbad as [-> | [-> | [-> Hshort]]]; try contradiction.
  cbn [negb andb].
  replace (utf16_length password <? 6) with true
    by (symmetry; now apply Z.ltb_lt).
  cbn [fst snd authError authLoading userName userEmail].
  repeat split; discriminate.
Qed.

Lemma handleAuth_rejects_incomplete_forms_witness :
  fst (handleAuth ascii_upper offline initialState "ada@example.org" "12345"
         false emptyWorld blankShell) = emptyWorld /\
  authError (snd (handleAuth ascii_upper offline initialState
                    "ada@example.org" "12345" false emptyWorld blankShell))
  = "Password must be at least 6 characters".
Proof.
  destruct (handleAuth_rejects_incomplete_forms ascii_upper offline initialState
              "ada@example.org" "12345" false emptyWorld blankShell)
    as (H1 & H2 & _).
  - right. right. split; [reflexivity | reflexivity].
  - split; [exact H1 | exact H2].
Defined.

Lemma sign_in_world (h : Host) (snap : AppState) (v : Stored) (type : JSValue)
    (message : string) (w : World) :
  (setItem "pos_auth" v ;;
   modify_app (setIsAuthenticated true) ;;
   loadDashboardData h ;;
   addNotification snap type message) w
  = addNotification snap type message
      (fst (loadDashboardData h
              (mkWorld (setIsAuthenticated true (app w))
                 (<["pos_auth" := v]> (localStorage w))
                 (now w) (timers w) (calls w)))).
Proof.
  rewrite bind_setItem, bind_modify_app.
  cbn [now app localStorage timers calls].
  erewrite bind_normal by apply loadDashboardData_pair.
  reflexivity.
Qed.

(** The world after a sign-in that is accepted, in terms of the world [d]
    the refresh leaves. *)
Lemma authenticate_accepted
    (upper : string -> string) (h : Host) (snap : AppState)
    (email password : string) (showLogin : bool) (w : World) (sh : Shell) :
  email <> "" -> password <> "" ->
  showLogin = true \/ 6 <= utf16_length password ->
  authenticate upper h snap email password showLogin w sh
  = (fst (addNotification snap (JStr "system")
            (greeting showLogin (capitalize upper (before_at email)))
            (fst (loadDashboardData h
              (mkWorld (setIsAuthenticated true (app w))
                 (<["pos_auth" := StoredAuth email
                      (capitalize upper (before_at email)) (now w)]>
                    (localStorage w))
                 (now w) (timers w) (calls w))))),
     mkShell (capitalize upper (before_at email)) email false (authError sh)).
Proof.
  intros Hemail Hpassword Hlong. unfold authenticate.
  rewrite (proj2 (String.eqb_neq email "") Hemail).
  rewrite (proj2 (String.eqb_neq password "") Hpassword).
  cbn [negb andb].
  assert (Hok : negb showLogin && (utf16_length password <? 6) = false).
  { destruct Hlong as [-> | Hlong]; [reflexivity |].
    apply andb_false_iff. right. apply Z.ltb_ge. lia. }
  rewrite Hok.
  rewrite sign_in_world. reflexivity.
Qed.

(** X21: every non-empty email and password are accepted on sign-in (on
    sign-up the password needs 6 characters): the backend is not asked.
    The session is stored under [pos_auth] with the email, the name and
    the time, not the password; the only requests are those of the
    refresh, followed by the one welcome push; the name is the part of
    the email before the first [@], with its first character in upper
    case. *)
Theorem handleAuth_accepts_any_credentials
    (upper : string -> string) (h : Host) (snap : AppState)
    (email password : string) (showLogin : bool) (w : World) (sh : Shell) :
  email <> "" -> password <> "" ->
  showLogin = true \/ 6 <= utf16_length password ->
  let name := capitalize upper (before_at email) in
  let r := handleAuth upper h snap email password showLogin w sh in
  isAuthenticated (app (fst r)) = true /\
  localStorage (fst r) !! "pos_auth" = Some (StoredAuth email name (now w)) /\
  calls (fst r)
  = calls w ++ dashboard_requests (now w) ++
    [(now w, CAddNotification (JStr "system") (greeting showLogin name))] /\
  snd r = mkShell name email false "".
Proof.
  intros Hemail Hpassword Hlong. cbv zeta. unfold handleAuth.
  rewrite authenticate_accepted by assumption.
  match goal with
  | |- context [fst (loadDashboardData h ?w0)] =>
      pose proof (loadDashboardData_keeps h w0) as Hkeeps;
      destruct (loadDashboardData_calls h w0) as (_ & _ & Hcalls);
      revert Hkeeps Hcalls;
      generalize (fst (loadDashboardData h w0))
  end.
  intros d Hkeeps Hcalls. unfold beside_refresh in Hkeeps. split_pairs Hkeeps.
  cbn [app localStorage now timers calls isAuthenticated setIsAuthenticated] in *.
  rewrite addNotification_run. cbn [fst snd app localStorage calls].
  split; [cbn; assumption |].
  split.
  { rewrite lookup_insert_ne by discriminate.
    match goal with Hs : localStorage d = _ |- _ => rewrite Hs end.
    apply lookup_insert_eq. }
  split; [| reflexivity].
  rewrite Hcalls, <- app_assoc.
  match goal with Ht : now d = _ |- _ => rewrite Ht end. reflexivity.
Qed.

Lemma handleAuth_accepts_any_credentials_witness :
  snd (handleAuth ascii_upper backend initialState "ada@example.org" "x" true
         emptyWorld blankShell)
  = mkShell "Ada" "ada@example.org" false "".
Proof.
  apply (handleAuth_accepts_any_credentials ascii_upper backend initialState
           "ada@example.org" "x" true emptyWorld blankShell).
  - discriminate.
  - discriminate.
  - left. reflexivity.
Defined.

Lemma loadNotifications_pair (w : World) :
  loadNotifications w = (fst (loadNotifications w), Normal tt).
Proof.
  unfold loadNotifications.
  destruct (localStorage w !! "pos_notifications") as [[] |]; reflexivity.
Qed.

Lemma restoreSession_signed_in (h : Host) (w : World) (sh : Shell)
    (email name : string) (t : Z) :
  localStorage w !! "pos_auth" = Some (StoredAuth email name t) ->
  restoreSession h w sh
  = (fst (loadChatHistory
            (fst (loadNotifications
                    (fst (loadDashboardData h
                            (mkWorld (setIsAuthenticated true (app w))
                               (localStorage w) (now w) (timers w)
                               (calls w))))))),
     mkShell name email (authLoading sh) (authError sh)).
Proof.
  intros Hauth. unfold restoreSession. rewrite Hauth.
  rewrite bind_modify_app.
  erewrite bind_normal by apply loadDashboardData_pair.
  erewrite bind_normal by apply loadNotifications_pair.
  reflexivity.
Qed.

(** X22: after a sign-in, loading the page again restores the session
    from the storage: [isAuthenticated] is set, the name and the email
    are those of the sign-in, the feed is the one that was on screen,
    and the transcript is the one that was kept under
    [pos_chat_history]. *)
Theorem sign_in_survives_a_reload
    (upper : string -> string) (h h' : Host) (snap : AppState)
    (email password : string) (showLogin : bool) (w : World) (sh : Shell) :
  email <> "" -> password <> "" ->
  showLogin = true \/ 6 <= utf16_length password ->
  let r := handleAuth upper h snap email password showLogin w sh in
  let r' := restoreSession h' (reloaded (fst r)) blankShell in
  isAuthenticated (app (fst r')) = true /\
  userName (snd r') = userName (snd r) /\
  userEmail (snd r') = email /\
  notifications (app (fst r')) = notifications (app (fst r)) /\
  chatHistory (app (fst r'))
  = match localStorage w !! "pos_chat_history" with
    | Some (StoredChat history) => history
    | _ => []
    end.
Proof.
  intros Hemail Hpassword Hlong. cbv zeta. unfold handleAuth.
  rewrite authenticate_accepted by assumption.
  match goal with
  | |- context [fst (loadDashboardData h ?w0)] =>
      pose proof (loadDashboardData_keeps h w0) as Hkeeps;
      revert Hkeeps;
      generalize (fst (loadDashboardData h w0))
  end.
  intros d Hkeeps. unfold beside_refresh in Hkeeps. split_pairs Hkeeps.
  cbn [app localStorage now timers calls] in *.
  rewrite addNotification_run. cbn [fst snd app].
  unfold reloaded. cbn [localStorage now calls].
  match goal with Hs : localStorage d = _ |- _ => rewrite Hs end.
  erewrite restoreSession_signed_in
    by (cbn [localStorage]; rewrite lookup_insert_ne by discriminate;
        apply lookup_insert_eq).
  cbn [app localStorage now timers calls].
  match goal with
  | |- context [fst (loadDashboardData h' ?w0)] =>
      pose proof (loadDashboardData_keeps h' w0) as Hkeeps';
      revert Hkeeps';
      generalize (fst (loadDashboardData h' w0))
  end.
  intros d' Hkeeps'. unfold beside_refresh in Hkeeps'. split_pairs Hkeeps'.
  cbn [app localStorage now timers calls] in *.
  erewrite (loadNotifications_synced d')
    by (match goal with Hs : localStorage d' = _ |- _ => rewrite Hs end;
        apply lookup_insert_eq).
  cbn [fst snd userName userEmail].
  assert (Hchat : forall x : World,
             localStorage x = localStorage d' ->
             localStorage x !! "pos_chat_history"
             = localStorage w !! "pos_chat_history").
  { intros x ->.
    match goal with Hs : localStorage d' = _ |- _ => rewrite Hs end.
    now rewrite !lookup_insert_ne by discriminate. }
  unfold loadChatHistory. cbn [localStorage]. rewrite (Hchat d' eq_refl).
  destruct (localStorage w !! "pos_chat_history") as [[] |];
    cbn [fst app isAuthenticated notifications chatHistory setNotifications
         setChatHistory modify_app];
    (split; [assumption |]); (split; [reflexivity |]);
    (split; [reflexivity |]); (split; [reflexivity |]);
    try reflexivity;
    match goal with
    | Hc : chat_cells (app d') = _ |- _ =>
        unfold chat_cells in Hc; split_pairs Hc; assumption
    end.
Qed.

Lemma sign_in_survives_a_reload_witness :
  userName (snd (restoreSession offline
                   (reloaded
                      (fst (handleAuth ascii_upper backend initialState
                              "ada@example.org" "secret7" false emptyWorld
                              blankShell)))
                   blankShell))
  = "Ada".
Proof.
  apply (sign_in_survives_a_reload ascii_upper backend offline initialState
           "ada@example.org" "secret7" false emptyWorld blankShell).
  - discriminate.
  - discriminate.
  - right. vm_compute. discriminate.
Defined.

(** X23: after Sign Out, loading the page again restores nothing and
    makes no request: the sign-in screen is shown.  Sign Out itself
    leaves the feed and the transcript of the running page in place. *)
Theorem signOut_then_reload_restores_nothing (h : Host) (w : World) (sh : Shell) :
  let out := fst (signOut w) in
  restoreSession h (reloaded out) sh = (reloaded out, sh) /\
  isAuthenticated (app (reloaded out)) = false /\
  calls (fst (restoreSession h (reloaded out) sh)) = calls w /\
  notifications (app out) = notifications (app w) /\
  chatHistory (app out) = chatHistory (app w).
Proof.
  cbv zeta.
  assert (Hauth : localStorage (reloaded (fst (signOut w))) !! "pos_auth" = None).
  { cbn. rewrite lookup_delete_ne by discriminate. apply lookup_delete_eq. }
  assert (Hrestore : restoreSession h (reloaded (fst (signOut w))) sh
                     = (reloaded (fst (signOut w)), sh)).
  { unfold restoreSession. now rewrite Hauth. }
  split; [exact Hrestore |]. rewrite Hrestore.
  repeat split.
Qed.

(** X24: Sign Out removes the stored feed but not the feed of the
    running page: a sign-in on the same page, also with another email,
    writes that feed back to [pos_notifications] under the welcome
    notification, and finds the transcript of the account before it both
    on screen and under [pos_chat_history]. *)
Theorem sign_out_forgets_neither_feed_nor_transcript
    (upper : string -> string) (h : Host)
    (email password : string) (showLogin : bool) (w : World) (sh : Shell) :
  email <> "" -> password <> "" ->
  showLogin = true \/ 6 <= utf16_length password ->
  let out := fst (signOut w) in
  let back :=
    fst (handleAuth upper h (app out) email password showLogin out sh) in
  localStorage out !! "pos_notifications" = None /\
  (exists welcome,
      notifications (app back) = take 20 (welcome :: notifications (app w)) /\
      localStorage back !! "pos_notifications"
      = Some (StoredFeed (take 20 (welcome :: notifications (app w))))) /\
  chatHistory (app back) = chatHistory (app w) /\
  localStorage back !! "pos_chat_history"
  = localStorage w !! "pos_chat_history".
Proof.
  intros Hemail Hpassword Hlong. cbv zeta. unfold handleAuth.
  rewrite authenticate_accepted by assumption.
  match goal with
  | |- context [fst (loadDashboardData h ?w0)] =>
      pose proof (loadDashboardData_keeps h w0) as Hkeeps;
      revert Hkeeps;
      generalize (fst (loadDashboardData h w0))
  end.
  intros d Hkeeps. unfold beside_refresh, chat_cells in Hkeeps.
  split_pairs Hkeeps.
  rewrite addNotification_run.
  cbn [fst snd app localStorage now timers calls signOut bind removeItem
       modify_app setIsAuthenticated notifications chatHistory
       setNotifications] in *.
  split; [apply lookup_delete_eq |].
  split.
  { eexists. split; [reflexivity | apply lookup_insert_eq]. }
  split; [assumption |].
  rewrite lookup_insert_ne by discriminate.
  match goal with Hs : localStorage d = _ |- _ => rewrite Hs end.
  now rewrite lookup_insert_ne, !lookup_delete_ne by discriminate.
Qed.

Lemma sign_out_forgets_neither_feed_nor_transcript_witness :
  chatHistory
    (app (fst (handleAuth ascii_upper backend (app (fst (signOut emptyWorld)))
                 "bob@example.org" "x" true (fst (signOut emptyWorld))
                 blankShell)))
  = chatHistory (app emptyWorld).
Proof.
  apply (sign_out_forgets_neither_feed_nor_transcript ascii_upper backend
           "bob@example.org" "x" true emptyWorld blankShell).
  - discriminate.
  - discriminate.
  - left. reflexivity.
Defined.

(** ** The contact reload set by the dispatcher *)

(** X25: the contact reload that the dispatcher schedules pushes
    "Contacts updated" whatever happened to the request: also when the
    request failed or its body could not be unwrapped, and the contacts
    are then as they were.  The push prepends to the feed of the render
    that created the dispatcher, so the notifications pushed since that
    render (the activations among them) are no longer in the feed; the
    stored feed follows. *)
Theorem contact_reload_always_reports_success
    (h : Host) (snap : AppState) (w : World) :
  let w' := run_callback h (CbReloadContacts snap) w in
  pushes_of (calls w')
  = pushes_of (calls w) ++ [(JStr "contact", "✓ Contacts updated")] /\
  (stage_value h (now w) ContactsCell = None ->
   contacts (app w') = contacts (app w)) /\
  (exists id,
      notifications (app w')
      = take 20 (mkNotification id (JStr "contact") "✓ Contacts updated"
                   "Just now" false :: notifications snap)) /\
  localStorage w' !! "pos_notifications"
  = Some (StoredFeed (notifications (app w'))).
Proof.
  cbv zeta. cbn [run_callback].
  erewrite bind_normal by apply loadContacts_run.
  rewrite addNotification_run. cbn [fst app calls localStorage now].
  split; [pushes; reflexivity |].
  split.
  - intros ->. reflexivity.
  - split; [eexists; reflexivity | apply lookup_insert_eq].
Qed.
